(** * Centra webhook events: the ingestor of [createGetCentraWebhookEvents]

    A shallow embedding of the webhook path of the repository (the functions
    [sign], [parseNamedParametersString], [parseRawBody] and
    [createGetCentraWebhookEvents], with the two Next.js adapters) and the
    properties its specification states about it; then the function [toggle]
    of the same package, with the test that exercises it, and further
    properties of both.

    A JavaScript string is modelled by the [string] of its bytes in UTF-8; the
    code of the repository inspects two characters only, the comma and the
    equals sign, and compares strings for equality.  An asynchronous function is modelled by its completion: the promise either
    resolves to a value ([Normal]) or rejects with an exception ([Throw]).  The
    calls made to the adapter and to the console are recorded in a trace. *)

From Stdlib Require Import Ascii Floats ZArith.
From stdpp Require Import gmap strings list.

Set Default Proof Using "Type".
Local Open Scope string_scope.
Local Open Scope list_scope.

(** ** JavaScript values *)

(** The values an adapter may hand over as a raw body ([unknown] in the
    source) and the values [JSON.parse] builds.  An object is the list of its
    own properties in creation order. *)
#[warnings="-register-all"]
Inductive value : Type :=
  | VUndefined
  | VNull
  | VBoolean (b : bool)
  | VNumber (x : float)
  | VString (s : string)
  | VArray (items : list value)
  | VObject (fields : list (string * value)).

(** ToBoolean: [undefined], [null], [false], [0], [NaN] and the empty string
    are the falsy values. *)
Definition truthy (v : value) : bool :=
  match v with
  | VUndefined | VNull => false
  | VBoolean b => b
  | VNumber x => negb (PrimFloat.is_zero x || PrimFloat.is_nan x)
  | VString s => negb (bool_decide (s = ""))
  | VArray _ | VObject _ => true
  end.

(** [typeof v === 'string'] *)
Definition is_string (v : value) : bool :=
  match v with VString _ => true | _ => false end.

(** Property lookup [o.key] on an object of own data properties; the
    prototype [Object.prototype] holds no property of the names looked up
    here. *)
Fixpoint get_field (key : string) (fields : list (string * value)) : option value :=
  match fields with
  | [] => None
  | (k, v) :: rest => if bool_decide (k = key) then Some v else get_field key rest
  end.

(** ** Completions and traces *)

Inductive exception : Type :=
  | SyntaxError                 (* raised by JSON.parse *)
  | URIError                    (* raised by encodeURIComponent *)
  | TypeError                   (* raised by the [in] operator on a primitive *)
  | GenericError (msg : string) (* [new Error(msg)], as an adapter may throw *).

Inductive completion (A : Type) : Type :=
  | Normal (a : A)
  | Throw (e : exception).
Arguments Normal {A} a.
Arguments Throw {A} e.

(** What the ingestor does that an observer can see. *)
Inductive event : Type :=
  | CallIsRequestMethodPost
  | CallGetRawBody
  | CallGetHeader (headerKey : string)
  | ConsoleError (text : string).

#[global] Instance exception_eq_dec : EqDecision exception.
Proof. solve_decision. Defined.
#[global] Instance event_eq_dec : EqDecision event.
Proof. solve_decision. Defined.

(** A computation yields a completion and the trace of what it did. *)
Definition M (A : Type) : Type := completion A * list event.

Definition ret {A} (a : A) : M A := (Normal a, []).
Definition throw {A} (e : exception) : M A := (Throw e, []).
Definition emit (ev : event) : M unit := (Normal tt, [ev]).
Definition lift {A} (ev : event) (c : completion A) : M A := (c, [ev]).

Definition bind {A B} (m : M A) (f : A -> M B) : M B :=
  match m with
  | (Normal a, t) => let '(r, t') := f a in (r, t ++ t')
  | (Throw e, t) => (Throw e, t)
  end.

Notation "'let*' x ':=' m 'in' k" := (bind m (fun x => k))
  (at level 10, x name, m at level 100, k at level 200).

Definition completion_map {A B} (f : A -> B) (c : completion A) : completion B :=
  match c with Normal a => Normal (f a) | Throw e => Throw e end.

Definition outcome {A} (m : M A) : completion A := fst m.
Definition trace {A} (m : M A) : list event := snd m.

(** ** The runtime the code runs on

    [sign] calls Node's [crypto], and the ingestor calls the globals
    [encodeURIComponent] and [JSON.parse]; none of them is code of the
    repository.  They are the fields of an interface. *)
Class Runtime : Type := {
  (** [crypto.createHmac('sha256', key).update(data).digest('hex')] *)
  hmac_sha256_hex : string -> string -> string;
  (** [encodeURIComponent(s)], which throws [URIError] on a lone surrogate *)
  encodeURIComponent : string -> completion string;
  (** [JSON.parse(s)], which throws [SyntaxError] on malformed input *)
  JSON_parse : string -> completion value
}.

(** The digits of a lowercase hexadecimal numeral, [0-9a-f]. *)
Definition lower_hex (c : ascii) : bool :=
  let n := Ascii.N_of_ascii c in
  ((48 <=? n)%N && (n <=? 57)%N) || ((97 <=? n)%N && (n <=? 102)%N).

Definition hex_string (s : string) : Prop :=
  Forall (fun c => lower_hex c = true) (String.list_ascii_of_string s).

(** The digits of a decimal numeral, as a timestamp in seconds is written. *)
Definition digit (c : ascii) : bool :=
  let n := Ascii.N_of_ascii c in (48 <=? n)%N && (n <=? 57)%N.

Definition timestamp_string (s : string) : Prop :=
  Forall (fun c => digit c = true) (String.list_ascii_of_string s).

(** ** The signature header *)

(** [sign]: the keyed digest of [dataString], in hexadecimal. *)
Definition sign `{runtime : Runtime} (secret dataString : string) : string :=
  hmac_sha256_hex secret dataString.

(** [s.split(sep)] for a separator of one character: the pieces between the
    occurrences of [sep], of which there is always at least one. *)
Fixpoint split (sep : ascii) (s : string) : list string :=
  match s with
  | EmptyString => [EmptyString]
  | String c rest =>
      if bool_decide (c = sep) then EmptyString :: split sep rest
      else match split sep rest with
           | piece :: pieces => String c piece :: pieces
           | [] => [String c EmptyString]
           end
  end.

(** The object built by [parseNamedParametersString]: a property is bound to
    a string, or to [undefined] ([None]) when its pair holds no equals
    sign. *)
Abbreviation SignatureParameters := (gmap string (option string)).

(** [const [key, value] = pair.split('=')]: the first two pieces of the pair;
    the second is [undefined] when the pair holds no equals sign. *)
Definition pair_key (pair : string) : string :=
  default "" (split "=" pair !! 0%nat).
Definition pair_value (pair : string) : option string :=
  split "=" pair !! 1%nat.

(** The step of the [reduce]: the accumulator unchanged on a falsy key and
    [{ ...acc, [key]: value }] otherwise. *)
Definition parameter_step (acc : SignatureParameters) (pair : string)
    : SignatureParameters :=
  let key := pair_key pair in
  let value := pair_value pair in
  if bool_decide (key = "") then acc else <[key := value]> acc.

Definition parseNamedParametersString (input : string) : SignatureParameters :=
  foldl parameter_step ∅ (split "," input).

(** [parameters.name], where [name] is not a property of [Object.prototype]:
    [undefined] when the property is missing or bound to [undefined]. *)
Definition parameter (parameters : SignatureParameters) (name : string)
    : option string :=
  mjoin (parameters !! name).

(** A template literal turns [undefined] into the text [undefined]. *)
Definition template_string (v : option string) : string :=
  match v with Some s => s | None => "undefined" end.

(** ** The raw body *)

(** Modelled from the spec: [isObject] is imported from [@noaignite/utils],
    whose source is not at hand.  The spec describes the raw body as "an
    object-like structure carrying a string field payload", so the guard
    holds of objects and of nothing else. *)
Definition isObject (v : value) : bool :=
  match v with VObject _ => true | _ => false end.

(** ['payload' in rawBody], which the guard [isObject] keeps away from
    primitives; an array has no property of that name. *)
Definition has_payload (v : value) : bool :=
  match v with
  | VObject fields => bool_decide (is_Some (get_field "payload" fields))
  | _ => false
  end.

(** [rawBody.payload] *)
Definition payload_of (v : value) : value :=
  match v with
  | VObject fields => default VUndefined (get_field "payload" fields)
  | _ => VUndefined
  end.

(** The narrowed body [{ payload: string }]. *)
Record Body : Type := { payload : string }.

Definition parseRawBody (rawBody : value) : option Body :=
  if truthy rawBody && isObject rawBody && has_payload rawBody
     && is_string (payload_of rawBody)
  then match payload_of rawBody with
       | VString s => Some {| payload := s |}
       | _ => None
       end
  else None.

(** ** The ingestor *)

Record Adapter (TRequest : Type) : Type := {
  isRequestMethodPost : option (TRequest -> completion bool);
  getHeader : TRequest -> string -> completion (option string);
  getRawBody : TRequest -> completion value
}.
Arguments isRequestMethodPost {TRequest} _.
Arguments getHeader {TRequest} _ _ _.
Arguments getRawBody {TRequest} _ _.

Record CreateGetCentraWebhookEventsConfig (TRequest : Type) : Type := {
  adapter : Adapter TRequest;
  secret : option string
}.
Arguments adapter {TRequest} _.
Arguments secret {TRequest} _.

Record ErrorObject : Type := { message : string }.

(** [CentraWebhookEventsError] is the array of the error objects and
    [CentraWebhookEventsData] the pair [[undefined, payloadParsed]]. *)
Inductive CentraWebhookEventsResults : Type :=
  | CentraWebhookEventsError (errors : list ErrorObject)
  | CentraWebhookEventsData (payloadParsed : value).

(** The four results of failure, under the names the specification gives
    them, each holding the message of the source. *)
Definition InvalidRequestMethod : CentraWebhookEventsResults :=
  CentraWebhookEventsError [ {| message := "Invalid request method" |} ].
Definition InvalidRequestBody : CentraWebhookEventsResults :=
  CentraWebhookEventsError [ {| message := "Invalid request body" |} ].
Definition NoSignature : CentraWebhookEventsResults :=
  CentraWebhookEventsError [ {| message := "No signature" |} ].
Definition InvalidSignature : CentraWebhookEventsResults :=
  CentraWebhookEventsError [ {| message := "Invalid signature" |} ].

(** [if (secret)]: the secret the verification runs with, if any.  A missing
    secret and the empty string are both falsy. *)
Definition configured_secret {TRequest}
    (config : CreateGetCentraWebhookEventsConfig TRequest) : option string :=
  match secret config with
  | Some s => if bool_decide (s = "") then None else Some s
  | None => None
  end.

Section Ingestor.
Context `{runtime : Runtime} {TRequest : Type}.
Variable config : CreateGetCentraWebhookEventsConfig TRequest.

(** [isRequestMethodPost && !isRequestMethodPost(request)] *)
Definition method_refused (request : TRequest) : M bool :=
  match isRequestMethodPost (adapter config) with
  | Some isPost =>
      let* post := lift CallIsRequestMethodPost (isPost request) in
      ret (negb post)
  | None => ret false
  end.

(** The body of [if (secret) { ... }]: [Some] result when the block
    returns, [None] when control falls through to [JSON.parse]. *)
Definition verify_signature (s : string) (request : TRequest) (body : Body)
    : M (option CentraWebhookEventsResults) :=
  let* signature :=
    lift (CallGetHeader "x-centra-signature")
         (getHeader (adapter config) request "x-centra-signature") in
  match signature with
  | None => ret (Some NoSignature)
  | Some signature =>
      if bool_decide (signature = "") then ret (Some NoSignature)
      else
        let parameters := parseNamedParametersString signature in
        let t := template_string (parameter parameters "t") in
        let* encoded := (encodeURIComponent (payload body), []) in
        if bool_decide
             (Some (sign s (t +:+ ".payload=" +:+ encoded))
              <> parameter parameters "v1")
        then
          let* _ := emit (ConsoleError "Invalid signature") in
          ret (Some InvalidSignature)
        else ret None
  end.

(** The asynchronous function [createGetCentraWebhookEvents] returns. *)
Definition createGetCentraWebhookEvents (request : TRequest)
    : M CentraWebhookEventsResults :=
  let* refused := method_refused request in
  if refused then ret InvalidRequestMethod
  else
    let* rawBody := lift CallGetRawBody (getRawBody (adapter config) request) in
    match parseRawBody rawBody with
    | None => ret InvalidRequestBody
    | Some body =>
        let* early :=
          match configured_secret config with
          | Some s => verify_signature s request body
          | None => ret None
          end in
        match early with
        | Some result => ret result
        | None =>
            let* payloadParsed := (JSON_parse (payload body), []) in
            ret (CentraWebhookEventsData payloadParsed)
        end
    end.
End Ingestor.

(** ** The adapters of the repository *)

(** The part of Next's [NextApiRequest] the adapter reads: a header is a
    string or, when it was sent several times, an array of strings. *)
Inductive IncomingHeader : Type :=
  | SingleHeader (text : string)
  | RepeatedHeader (texts : list string).

Record NextApiRequest : Type := {
  method : option string;
  headers : gmap string IncomingHeader;
  body : value
}.

Definition nextPagesRouterAdapter : Adapter NextApiRequest := {|
  isRequestMethodPost :=
    Some (fun request => Normal (bool_decide (method request = Some "POST")));
  getHeader := fun request headerKey =>
    match headers request !! headerKey with
    | Some (RepeatedHeader _) =>
        Throw (GenericError "Multiple headers with same key passed.")
    | Some (SingleHeader header) => Normal (Some header)
    | None => Normal None
    end;
  getRawBody := fun req => Normal (body req)
|}.

(** The part of the Fetch API's [Request] the adapter reads: [headers.get]
    and the completion of [formData()] with the entries it yields. *)
Record Request : Type := {
  headers_get : string -> option string;
  formData : completion (list (string * value))
}.

(** [Object.fromEntries]: a later entry of a name overwrites the earlier
    one. *)
Fixpoint set_field (key : string) (v : value) (fields : list (string * value))
    : list (string * value) :=
  match fields with
  | [] => [(key, v)]
  | (k, w) :: rest =>
      if bool_decide (k = key) then (k, v) :: rest
      else (k, w) :: set_field key v rest
  end.

Definition fromEntries (entries : list (string * value)) : value :=
  VObject (foldl (fun fields entry => set_field entry.1 entry.2 fields) [] entries).

Definition nextAppRouterAdapter : Adapter Request := {|
  isRequestMethodPost := None;
  getHeader := fun request headerKey => Normal (headers_get request headerKey);
  getRawBody := fun request => completion_map fromEntries (formData request)
|}.

(** ** Notions of the specification *)

(** A string in which the character [sep] does not occur. *)
Definition free_of (sep : ascii) (s : string) : Prop :=
  Forall (fun c => c <> sep) (String.list_ascii_of_string s).

(** [pieces.join(sep)], the inverse of [split]. *)
Fixpoint join (sep : ascii) (pieces : list string) : string :=
  match pieces with
  | [] => ""
  | [piece] => piece
  | piece :: rest => piece +:+ String sep (join sep rest)
  end.

(** The binding of [key] a list of pairs ends with, as the specification
    words it: the value of the last pair that names the key. *)
Definition last_binding (key : string) (pairs : list string)
    : option (option string) :=
  pair_value <$> last (filter (fun pair => pair_key pair = key) pairs).

(** A text that holds neither of the two separators of the header. *)
Definition separator_free (s : string) : Prop :=
  free_of "," s /\ free_of "=" s.






(** The request passes the method check, if the adapter has one. *)
Definition method_check_passes {TRequest}
    (config : CreateGetCentraWebhookEventsConfig TRequest) (request : TRequest)
    : Prop :=
  match isRequestMethodPost (adapter config) with
  | Some isPost => isPost request = Normal true
  | None => True
  end.

(** The trace a method check leaves. *)
Definition method_trace {TRequest}
    (config : CreateGetCentraWebhookEventsConfig TRequest) : list event :=
  match isRequestMethodPost (adapter config) with
  | Some _ => [CallIsRequestMethodPost]
  | None => []
  end.

(** The raw body is an object that carries the string [P] as its field
    [payload]. *)
Definition carries_payload (rawBody : value) (P : string) : Prop :=
  exists fields,
    rawBody = VObject fields /\ get_field "payload" fields = Some (VString P).

(** The configuration [config] with another secret, and with another way to
    read the headers. *)
Definition with_secret {TRequest}
    (config : CreateGetCentraWebhookEventsConfig TRequest)
    (s : option string) : CreateGetCentraWebhookEventsConfig TRequest :=
  {| adapter := adapter config; secret := s |}.

Definition with_getHeader {TRequest}
    (config : CreateGetCentraWebhookEventsConfig TRequest)
    (g : TRequest -> string -> completion (option string))
    : CreateGetCentraWebhookEventsConfig TRequest :=
  {| adapter := {| isRequestMethodPost := isRequestMethodPost (adapter config);
                   getHeader := g;
                   getRawBody := getRawBody (adapter config) |};
     secret := secret config |}.

(** The computation [m] run after the events [t]. *)
Definition after {A} (t : list event) (m : M A) : M A :=
  (outcome m, t ++ trace m).

(** What is left to run once the body is parsed: the signature block and the
    decoding of the payload [P]. *)
Definition from_signature `{runtime : Runtime} {TRequest}
    (config : CreateGetCentraWebhookEventsConfig TRequest) (request : TRequest)
    (P : string) : M CentraWebhookEventsResults :=
  let* early :=
    match configured_secret config with
    | Some s => verify_signature config s request {| payload := P |}
    | None => ret None
    end in
  match early with
  | Some result => ret result
  | None =>
      let* payloadParsed := (JSON_parse P, []) in
      ret (CentraWebhookEventsData payloadParsed)
  end.

(** How a run may end when no adapter function throws: the promise resolves
    to one of the four failures or to the decoded payload, or it rejects with
    what [encodeURIComponent] or [JSON.parse] threw on the payload. *)
Definition data_or_decoding_failure `{runtime : Runtime} (rawBody : value)
    (c : completion CentraWebhookEventsResults) : Prop :=
  match c with
  | Normal result =>
      result ∈ [InvalidRequestMethod; InvalidRequestBody;
                NoSignature; InvalidSignature]
      \/ exists P events,
           carries_payload rawBody P /\ JSON_parse P = Normal events /\
           result = CentraWebhookEventsData events
  | Throw e =>
      exists P,
        carries_payload rawBody P /\
        (encodeURIComponent P = Throw e \/ JSON_parse P = Throw e)
  end.

(** The digest the ingestor expects for the parameters of a header. *)
Definition expected_digest `{runtime : Runtime} (s : string)
    (parameters : SignatureParameters) (encoded : string) : string :=
  sign s (template_string (parameter parameters "t") +:+ ".payload=" +:+ encoded).

(** The name of the header that carries the signature. *)
Definition signature_header : string := "x-centra-signature".

(** ** A reference runtime

    The three operations of [Runtime] as Node provides them, written out so
    that the ingestor can be run on examples: HMAC-SHA256 after FIPS 180-4
    and RFC 2104, [encodeURIComponent] and [JSON.parse] after ECMA-262.  A
    [string] is read as the bytes of the JavaScript string in UTF-8, a lone
    surrogate taking the three bytes its code would take. *)

Definition bytes (s : string) : list N :=
  N_of_ascii <$> String.list_ascii_of_string s.
Definition text (bs : list N) : string :=
  String.string_of_list_ascii (ascii_of_N <$> bs).

(** SHA-256 and HMAC over lists of bytes. *)
Module Sha256.
Local Open Scope N_scope.
(** Words of 32 bits, as numbers below [2^32]. *)
Definition mask : N := 0xFFFFFFFF.
Definition wrap (x : N) : N := N.land x mask.
Definition add (x y : N) : N := wrap (x + y).
Definition rotr (n x : N) : N :=
  wrap (N.lor (N.shiftr x n) (N.shiftl x (32 - n))).
Definition shr (n x : N) : N := N.shiftr x n.
Definition xor3 (x y z : N) : N := N.lxor x (N.lxor y z).

Definition Ch (x y z : N) : N :=
  N.lxor (N.land x y) (N.land (N.lxor x mask) z).
Definition Maj (x y z : N) : N :=
  xor3 (N.land x y) (N.land x z) (N.land y z).
Definition Sigma0 (x : N) : N := xor3 (rotr 2 x) (rotr 13 x) (rotr 22 x).
Definition Sigma1 (x : N) : N := xor3 (rotr 6 x) (rotr 11 x) (rotr 25 x).
Definition sigma0 (x : N) : N := xor3 (rotr 7 x) (rotr 18 x) (shr 3 x).
Definition sigma1 (x : N) : N := xor3 (rotr 17 x) (rotr 19 x) (shr 10 x).

(** The first sixty-four primes. *)
Definition prime (n : N) : bool :=
  forallb (fun d => negb (n mod d =? 0)) (N.of_nat <$> seq 2 (N.to_nat n - 2)).
Definition primes : list N :=
  Eval vm_compute in take 64 (filter (fun n => prime n = true) (N.of_nat <$> seq 2 310)).

(** The integer part of the cube root, found bit by bit. *)
Definition cube_root (n : N) : N :=
  foldl (fun r b => let r' := r + N.shiftl 1 b in
                    if r' * r' * r' <=? n then r' else r)
        0 (N.of_nat <$> rev (seq 0 40)).

(** The round constants and the initial hash value: the first 32 bits of the
    fractional parts of the cube roots, and of the square roots, of the
    primes. *)
Definition K : list N :=
  Eval vm_compute in (fun p => wrap (cube_root (N.shiftl p 96))) <$> primes.
Definition H0 : list N :=
  Eval vm_compute in (fun p => wrap (N.sqrt (N.shiftl p 64))) <$> take 8 primes.

(** The message schedule, most recent word first. *)
Definition schedule_step (ws : list N) : list N :=
  let w i := default 0 (ws !! i) in
  add (add (sigma1 (w 1%nat)) (w 6%nat)) (add (sigma0 (w 14%nat)) (w 15%nat)) :: ws.
Definition schedule (block : list N) : list N :=
  rev (Nat.iter 48 schedule_step (rev block)).

Definition round (st : list N) (kw : N * N) : list N :=
  match st with
  | [a; b; c; d; e; f; g; h] =>
      let T1 := add (add (add h (Sigma1 e)) (add (Ch e f g) kw.1)) kw.2 in
      let T2 := add (Sigma0 a) (Maj a b c) in
      [add T1 T2; a; b; c; add d T1; e; f; g]
  | _ => st
  end.

Definition compress (H : list N) (block : list N) : list N :=
  zip_with add H (foldl round H (zip K (schedule block))).

(** Big-endian bytes and words. *)
Definition bytes_of (width : nat) (x : N) : list N :=
  (fun i => N.land (N.shiftr x (8 * N.of_nat i)) 0xFF) <$> rev (seq 0 width).
Definition word_of (bs : list N) : N :=
  foldl (fun x b => N.shiftl x 8 + b) 0 bs.

Fixpoint chunks {A} (fuel size : nat) (l : list A) : list (list A) :=
  match fuel, l with
  | O, _ | _, [] => []
  | S fuel, _ => take size l :: chunks fuel size (drop size l)
  end.

Definition pad (message : list N) : list N :=
  let len := N.of_nat (length message) in
  let zeros := N.to_nat ((64 - (len + 9) mod 64) mod 64) in
  message ++ [0x80] ++ replicate zeros 0 ++ bytes_of 8 (8 * len).

Definition sha256 (message : list N) : list N :=
  let padded := pad message in
  let words := word_of <$> chunks (length padded) 4 padded in
  let blocks := chunks (length words) 16 words in
  foldl compress H0 blocks ≫= bytes_of 4.

(** RFC 2104 *)
Definition hmac (key message : list N) : list N :=
  let key := if (64 <? N.of_nat (length key)) then sha256 key else key in
  let key := key ++ replicate (64 - length key) 0 in
  let inner := sha256 ((N.lxor 0x36 <$> key) ++ message) in
  sha256 ((N.lxor 0x5c <$> key) ++ inner).
End Sha256.

(** A parser of JSON texts, on the bytes of the text.  Objects keep the last
    value of a repeated name; numbers are rounded to the nearest double. *)
Module Json.
Local Open Scope N_scope.
Abbreviation input := (list N).

Definition whitespace (c : N) : bool :=
  (c =? 32) || (c =? 9) || (c =? 10) || (c =? 13).
Fixpoint skip (s : input) : input :=
  match s with
  | c :: rest => if whitespace c then skip rest else s
  | [] => []
  end.

Definition is_digit (c : N) : bool := (48 <=? c) && (c <=? 57).
Definition hex_value (c : N) : option N :=
  if (48 <=? c) && (c <=? 57) then Some (c - 48)
  else if (97 <=? c) && (c <=? 102) then Some (c - 87)
  else if (65 <=? c) && (c <=? 70) then Some (c - 55)
  else None.

(** The bytes of a code point in (generalised) UTF-8. *)
Definition utf8 (cp : N) : list N :=
  let tail n := 128 + N.land (N.shiftr cp (6 * n)) 63 in
  if cp <? 0x80 then [cp]
  else if cp <? 0x800 then [192 + N.shiftr cp 6; tail 0]
  else if cp <? 0x10000 then [224 + N.shiftr cp 12; tail 1; tail 0]
  else [240 + N.shiftr cp 18; tail 2; tail 1; tail 0].

(** A high surrogate next to a low one is one code point. *)
Fixpoint join_surrogates (s : input) : input :=
  match s with
  | 237 :: b1 :: b2 :: rest =>
      match join_surrogates rest with
      | (237 :: c1 :: c2 :: rest') as joined =>
          if (160 <=? b1) && (b1 <=? 175) && (176 <=? c1) && (c1 <=? 191) then
            let hi := N.shiftl (b1 - 160) 6 + (b2 - 128) in
            let lo := N.shiftl (c1 - 176) 6 + (c2 - 128) in
            utf8 (0x10000 + N.shiftl hi 10 + lo) ++ rest'
          else 237 :: b1 :: b2 :: joined
      | joined => 237 :: b1 :: b2 :: joined
      end
  | c :: rest => c :: join_surrogates rest
  | [] => []
  end.

(** [\uXXXX] *)
Definition unicode_escape (s : input) : option (N * input) :=
  match s with
  | a :: b :: c :: d :: rest =>
      a ← hex_value a; b ← hex_value b; c ← hex_value c; d ← hex_value d;
      Some (((a * 16 + b) * 16 + c) * 16 + d, rest)
  | _ => None
  end.

(** The characters of a string up to its closing quote. *)
Fixpoint string_body (fuel : nat) (s : input) : option (input * input) :=
  match fuel with
  | O => None
  | S fuel =>
      match s with
      | 34 :: rest => Some ([], rest)
      | 92 :: e :: rest =>
          '(cs, rest) ←
            match e with
            | 34 | 92 | 47 => Some ([e], rest)
            | 98 => Some ([8], rest)
            | 102 => Some ([12], rest)
            | 110 => Some ([10], rest)
            | 114 => Some ([13], rest)
            | 116 => Some ([9], rest)
            | 117 => '(cp, rest) ← unicode_escape rest; Some (utf8 cp, rest)
            | _ => None
            end;
          '(more, rest) ← string_body fuel rest;
          Some (cs ++ more, rest)
      | c :: rest =>
          if c <? 32 then None
          else '(more, rest) ← string_body fuel rest; Some (c :: more, rest)
      | [] => None
      end
  end.

Definition parse_string (s : input) : option (string * input) :=
  '(cs, rest) ← string_body (S (length s)) s;
  Some (text (join_surrogates cs), rest).

Fixpoint digits (s : input) : list N * input :=
  match s with
  | c :: rest =>
      if is_digit c then let '(ds, rest) := digits rest in (c - 48 :: ds, rest)
      else ([], s)
  | [] => ([], [])
  end.

Definition numeral (ds : list N) : N := foldl (fun n d => 10 * n + d) 0 ds.

Fixpoint strip_zeros (ds : list N) : list N :=
  match ds with
  | 0 :: rest => strip_zeros rest
  | _ => ds
  end.

(** The double nearest to [m * 10^e], ties to even. *)
Definition to_double (negative : bool) (ds : list N) (e : Z) : float :=
  let m := Z.of_N (numeral ds) in
  let sign (z : Z) : Z := if negative then Z.opp z else z in
  let magnitude := (Z.of_nat (length (strip_zeros ds)) + e)%Z in
  if (m =? 0)%Z then (if negative then neg_zero else zero)
  else if (400 <? magnitude)%Z then (if negative then neg_infinity else infinity)
  else if (magnitude <? -400)%Z then (if negative then neg_zero else zero)
  else if (0 <=? e)%Z then
    SF2Prim (binary_normalize prec emax (sign (m * 10 ^ e)%Z) 0 false)
  else
    let den := (10 ^ (- e))%Z in
    let s := (Z.log2 den + 66)%Z in
    let num := Z.shiftl m s in
    let q := (num / den)%Z in
    let sticky := if (num mod den =? 0)%Z then 0%Z else 1%Z in
    SF2Prim (binary_normalize prec emax (sign (2 * q + sticky)%Z) (- (s + 1)) false).

Definition parse_number (s : input) : option (float * input) :=
  let '(negative, s) := match s with 45 :: rest => (true, rest) | _ => (false, s) end in
  '(int, s) ←
    match s with
    | 48 :: rest => Some ([0], rest)
    | _ => match digits s with ([], _) => None | r => Some r end
    end;
  '(frac, s) ←
    match s with
    | 46 :: rest => match digits rest with ([], _) => None | r => Some r end
    | _ => Some ([], s)
    end;
  '(e, s) ←
    match s with
    | 101 :: rest | 69 :: rest =>
        let '(minus, rest) :=
          match rest with
          | 45 :: r => (true, r)
          | 43 :: r => (false, r)
          | _ => (false, rest)
          end in
        match digits rest with
        | ([], _) => None
        | (ds, r) =>
            let n := Z.of_N (numeral ds) in
            Some (if minus then Z.opp n else n, r)
        end
    | _ => Some (0%Z, s)
    end;
  Some (to_double negative (int ++ frac) (e - Z.of_nat (length frac)), s).

Definition literal (word : string) (v : value) (s : input) : option (value * input) :=
  let w := bytes word in
  if bool_decide (take (length w) s = w) then Some (v, drop (length w) s) else None.

(** The elements of an array after its opening bracket, and the members of
    an object after its opening brace; [parse] reads one value. *)
Fixpoint elements (parse : input -> option (value * input)) (fuel : nat)
    (acc : list value) (s : input) : option (value * input) :=
  match fuel with
  | O => None
  | S fuel =>
      '(v, s) ← parse s;
      match skip s with
      | 44 :: rest => elements parse fuel (v :: acc) rest
      | 93 :: rest => Some (VArray (rev (v :: acc)), rest)
      | _ => None
      end
  end.

Fixpoint members (parse : input -> option (value * input)) (fuel : nat)
    (acc : list (string * value)) (s : input) : option (value * input) :=
  match fuel with
  | O => None
  | S fuel =>
      match skip s with
      | 34 :: rest =>
          '(key, s) ← parse_string rest;
          match skip s with
          | 58 :: rest =>
              '(v, s) ← parse rest;
              let acc := set_field key v acc in
              match skip s with
              | 44 :: rest => members parse fuel acc rest
              | 125 :: rest => Some (VObject acc, rest)
              | _ => None
              end
          | _ => None
          end
      | _ => None
      end
  end.

Fixpoint parse_value (fuel : nat) (s : input) : option (value * input) :=
  match fuel with
  | O => None
  | S fuel =>
      match skip s with
      | 123 :: rest =>
          match skip rest with
          | 125 :: rest => Some (VObject [], rest)
          | _ => members (parse_value fuel) (length rest) [] rest
          end
      | 91 :: rest =>
          match skip rest with
          | 93 :: rest => Some (VArray [], rest)
          | _ => elements (parse_value fuel) (length rest) [] rest
          end
      | 34 :: rest => '(str, s) ← parse_string rest; Some (VString str, s)
      | (116 :: _) as s => literal "true" (VBoolean true) s
      | (102 :: _) as s => literal "false" (VBoolean false) s
      | (110 :: _) as s => literal "null" VNull s
      | s => '(x, s) ← parse_number s; Some (VNumber x, s)
      end
  end.

Definition parse (s : string) : option value :=
  let bs := bytes s in
  '(v, rest) ← parse_value (S (length bs)) bs;
  match skip rest with [] => Some v | _ => None end.
End Json.

(** The three operations on strings. *)
Module Node.
Local Open Scope N_scope.

(** The three bytes of a lone surrogate start with [0xED] and a byte from
    [0xA0] on. *)
Definition surrogate_lead (b0 b1 : N) : bool := (b0 =? 237) && (160 <=? b1).

Fixpoint has_surrogate (bs : list N) : bool :=
  match bs with
  | b0 :: (b1 :: _) as rest => surrogate_lead b0 b1 || has_surrogate rest
  | _ => false
  end.

(** The bytes a string is hashed as: a lone surrogate is replaced by the
    replacement character U+FFFD. *)
Fixpoint utf8_bytes (bs : list N) : list N :=
  match bs with
  | b0 :: ((b1 :: _ :: rest) as tail) =>
      if surrogate_lead b0 b1 then 239 :: 191 :: 189 :: utf8_bytes rest
      else b0 :: utf8_bytes tail
  | _ => bs
  end.

Definition hex_digit (n : N) : N := if n <? 10 then 48 + n else 87 + n.
Definition HEX_digit (n : N) : N := if n <? 10 then 48 + n else 55 + n.

(** [digest('hex')] *)
Definition hex (bs : list N) : string :=
  text (bs ≫= fun b => [hex_digit (N.shiftr b 4); hex_digit (N.land b 15)]).

Definition createHmac_sha256_hex (key data : string) : string :=
  hex (Sha256.hmac (utf8_bytes (bytes key)) (utf8_bytes (bytes data))).

(** The characters [encodeURIComponent] leaves as they are: letters,
    digits and [- _ . ! ~ * ' ( )]. *)
Definition unreserved (c : N) : bool :=
  ((65 <=? c) && (c <=? 90)) || ((97 <=? c) && (c <=? 122))
  || ((48 <=? c) && (c <=? 57))
  || bool_decide (c ∈ [45; 95; 46; 33; 126; 42; 39; 40; 41]).

Definition percent (b : N) : list N :=
  if unreserved b then [b]
  else [37; HEX_digit (N.shiftr b 4); HEX_digit (N.land b 15)].

Definition encodeURIComponent (s : string) : completion string :=
  if has_surrogate (bytes s) then Throw URIError
  else Normal (text (bytes s ≫= percent)).

Definition JSON_parse (s : string) : completion value :=
  match Json.parse s with
  | Some v => Normal v
  | None => Throw SyntaxError
  end.
End Node.

Definition node : Runtime := {|
  hmac_sha256_hex := Node.createHmac_sha256_hex;
  encodeURIComponent := Node.encodeURIComponent;
  JSON_parse := Node.JSON_parse
|}.

(** ** Requests to run the ingestor on *)

(** The double quote, and a payload as Centra sends it:
    [{"products":["1"]}]. *)
Definition quote : string := text [34%N].
Definition products_payload : string :=
  "{" +:+ quote +:+ "products" +:+ quote +:+ ":[" +:+ quote +:+ "1" +:+ quote +:+ "]}".
Definition products_events : value :=
  VObject [("products", VArray [VString "1"])].

Definition pages_config (s : option string)
    : CreateGetCentraWebhookEventsConfig NextApiRequest :=
  {| adapter := nextPagesRouterAdapter; secret := s |}.

Definition app_config (s : option string)
    : CreateGetCentraWebhookEventsConfig Request :=
  {| adapter := nextAppRouterAdapter; secret := s |}.

(** A request of the pages router with the given method, signature header
    and body. *)
Definition pages_request (verb : string) (signature : option string)
    (rawBody : value) : NextApiRequest :=
  {| method := Some verb;
     headers := match signature with
                | Some header => {[ "x-centra-signature" := SingleHeader header ]}
                | None => ∅
                end;
     body := rawBody |}.

Definition payload_body (P : string) : value := VObject [("payload", VString P)].

(** The header Centra sends for [products_payload] at the time [1700000000]
    under the secret [secret]. *)
Definition signed_header : string :=
  "t=1700000000,v1=59e14c95ffd062ee860995aca3dae0c8c99e8c3b1df436ba09d6c81d1124be27".

(** ** The ways a run ends

    The ends of a run of the ingestor, one for each [return], each call that
    may throw, and the fall through to [JSON.parse]. *)
Inductive ends `{runtime : Runtime} {TRequest : Type}
    (config : CreateGetCentraWebhookEventsConfig TRequest) (request : TRequest)
    : M CentraWebhookEventsResults -> Prop :=
  | ends_method_throws isPost e :
      isRequestMethodPost (adapter config) = Some isPost ->
      isPost request = Throw e ->
      ends config request (Throw e, [CallIsRequestMethodPost])
  | ends_method_refused isPost :
      isRequestMethodPost (adapter config) = Some isPost ->
      isPost request = Normal false ->
      ends config request (Normal InvalidRequestMethod, [CallIsRequestMethodPost])
  | ends_body_throws e :
      method_check_passes config request ->
      getRawBody (adapter config) request = Throw e ->
      ends config request (Throw e, method_trace config ++ [CallGetRawBody])
  | ends_body_refused rawBody :
      method_check_passes config request ->
      getRawBody (adapter config) request = Normal rawBody ->
      parseRawBody rawBody = None ->
      ends config request
        (Normal InvalidRequestBody, method_trace config ++ [CallGetRawBody])
  | ends_unverified rawBody P :
      method_check_passes config request ->
      getRawBody (adapter config) request = Normal rawBody ->
      carries_payload rawBody P ->
      configured_secret config = None ->
      ends config request
        (completion_map CentraWebhookEventsData (JSON_parse P),
         method_trace config ++ [CallGetRawBody])
  | ends_header_throws rawBody P s e :
      method_check_passes config request ->
      getRawBody (adapter config) request = Normal rawBody ->
      carries_payload rawBody P ->
      configured_secret config = Some s ->
      getHeader (adapter config) request signature_header = Throw e ->
      ends config request
        (Throw e,
         method_trace config ++ [CallGetRawBody; CallGetHeader signature_header])
  | ends_no_signature rawBody P s signature :
      method_check_passes config request ->
      getRawBody (adapter config) request = Normal rawBody ->
      carries_payload rawBody P ->
      configured_secret config = Some s ->
      getHeader (adapter config) request signature_header = Normal signature ->
      signature = None \/ signature = Some "" ->
      ends config request
        (Normal NoSignature,
         method_trace config ++ [CallGetRawBody; CallGetHeader signature_header])
  | ends_encode_throws rawBody P s header e :
      method_check_passes config request ->
      getRawBody (adapter config) request = Normal rawBody ->
      carries_payload rawBody P ->
      configured_secret config = Some s ->
      getHeader (adapter config) request signature_header = Normal (Some header) ->
      header <> "" ->
      encodeURIComponent P = Throw e ->
      ends config request
        (Throw e,
         method_trace config ++ [CallGetRawBody; CallGetHeader signature_header])
  | ends_invalid_signature rawBody P s header encoded :
      method_check_passes config request ->
      getRawBody (adapter config) request = Normal rawBody ->
      carries_payload rawBody P ->
      configured_secret config = Some s ->
      getHeader (adapter config) request signature_header = Normal (Some header) ->
      header <> "" ->
      encodeURIComponent P = Normal encoded ->
      parameter (parseNamedParametersString header) "v1"
        <> Some (expected_digest s (parseNamedParametersString header) encoded) ->
      ends config request
        (Normal InvalidSignature,
         method_trace config
           ++ [CallGetRawBody; CallGetHeader signature_header;
               ConsoleError "Invalid signature"])
  | ends_verified rawBody P s header encoded :
      method_check_passes config request ->
      getRawBody (adapter config) request = Normal rawBody ->
      carries_payload rawBody P ->
      configured_secret config = Some s ->
      getHeader (adapter config) request signature_header = Normal (Some header) ->
      header <> "" ->
      encodeURIComponent P = Normal encoded ->
      parameter (parseNamedParametersString header) "v1"
        = Some (expected_digest s (parseNamedParametersString header) encoded) ->
      ends config request
        (completion_map CentraWebhookEventsData (JSON_parse P),
         method_trace config ++ [CallGetRawBody; CallGetHeader signature_header]).

(** ** What a run leaves behind *)

(** The lines written to the error console [console.error]. *)
Definition console_lines (t : list event) : list string :=
  omap (fun ev => match ev with ConsoleError text => Some text | _ => None end) t.

(** The calls of a run in the order of the source. *)
Definition call_order : list event :=
  [CallIsRequestMethodPost; CallGetRawBody; CallGetHeader signature_header;
   ConsoleError "Invalid signature"].

(** An adapter function throws [e], after the calls [t]: the method
    predicate, the reading of the body behind a method check that passed, or
    the reading of the header behind a body that was accepted, under a
    secret. *)
Inductive thrown_by_adapter {TRequest : Type}
    (config : CreateGetCentraWebhookEventsConfig TRequest) (request : TRequest)
    (e : exception) : list event -> Prop :=
  | thrown_by_method isPost :
      isRequestMethodPost (adapter config) = Some isPost ->
      isPost request = Throw e ->
      thrown_by_adapter config request e [CallIsRequestMethodPost]
  | thrown_by_body :
      method_check_passes config request ->
      getRawBody (adapter config) request = Throw e ->
      thrown_by_adapter config request e (method_trace config ++ [CallGetRawBody])
  | thrown_by_header rawBody P s :
      method_check_passes config request ->
      getRawBody (adapter config) request = Normal rawBody ->
      carries_payload rawBody P ->
      configured_secret config = Some s ->
      getHeader (adapter config) request signature_header = Throw e ->
      thrown_by_adapter config request e
        (method_trace config ++ [CallGetRawBody; CallGetHeader signature_header]).

(** ** Forms and headers as they are written *)

(** The entries of a form under one name. *)
Definition entries_named (name : string) (entries : list (string * value))
    : list (string * value) :=
  filter (fun entry => entry.1 = name) entries.

(** The header that carries the given parameters, in their order: the text
    [key=value] of each, joined by commas. *)
Definition render_pair (kv : string * string) : string :=
  kv.1 +:+ String "=" kv.2.
Definition render_parameters (kvs : list (string * string)) : string :=
  join "," (render_pair <$> kvs).

(** ** [toggle]

    [toggle] compares the entries of an array in two ways: [includes] with
    the equality SameValueZero and the filter with [!==].  The entries may be
    of any type; what the two equalities are on it, and the laws ECMAScript
    gives them, make the interface [Comparable]: SameValueZero is an
    equivalence, it holds where [===] holds, and the two differ only on a
    value that is not [===] to itself, as [NaN] is. *)
Class Comparable (T : Type) : Type := {
  same_value_zero : T -> T -> bool;
  strict_equal : T -> T -> bool
}.

Class ComparableLaws (T : Type) `{Comparable T} : Prop := {
  same_value_zero_refl x : same_value_zero x x = true;
  same_value_zero_sym x y : same_value_zero x y = same_value_zero y x;
  same_value_zero_trans x y z :
    same_value_zero x y = true -> same_value_zero y z = true ->
    same_value_zero x z = true;
  strict_equal_same_value x y :
    strict_equal x y = true -> same_value_zero x y = true;
  same_value_strict_equal x y :
    same_value_zero x y = true -> strict_equal y y = true ->
    strict_equal x y = true;
  strict_equal_self x y : strict_equal x y = true -> strict_equal y y = true
}.

(** [array.includes(value)] *)
Definition includes `{Comparable T} (array : list T) (value : T) : bool :=
  existsb (fun item => same_value_zero item value) array.

(** [toggle(array, value)] *)
Definition toggle `{Comparable T} (array : list T) (value : T) : list T :=
  if includes array value
  then List.filter (fun item => negb (strict_equal item value)) array
  else array ++ [value].

(** The test of [toggle], for any array [original] in the place of
    [[1, 'foo', true]] and any value [extra] in the place of ['bar']: each
    value of the array is toggled twice, then the value more is.  A check
    [expect(received).toBe(expected)] is the pair of the two booleans, and
    the test passes when they agree in every check. *)
Definition check : Type := bool * bool.

Definition toggles_each `{Comparable T}
    (state : list T * list check) (value : T) : list T * list check :=
  let removed := toggle state.1 value in
  let added := toggle removed value in
  (added, state.2 ++ [(includes removed value, false); (includes added value, true)]).

Definition toggles_given_value `{Comparable T} (original : list T) (extra : T)
    : list check :=
  let '(modified, checks) := foldl toggles_each (original, []) original in
  let added := toggle modified extra in
  let removed := toggle added extra in
  checks ++ [(includes added extra, true); (includes removed extra, false)].

Definition passes (checks : list check) : Prop :=
  Forall (fun check => check.1 = check.2) checks.

(** The primitive values of JavaScript that the tests toggle: [undefined],
    [null], booleans, numbers and strings. *)
Inductive primitive : Type :=
  | PUndefined
  | PNull
  | PBoolean (b : bool)
  | PNumber (x : float)
  | PString (s : string).

(** [===] on primitives; on numbers it is the equality of IEEE 754, under
    which [NaN] equals nothing and the two zeros are equal. *)
Definition primitive_strict_equal (x y : primitive) : bool :=
  match x, y with
  | PUndefined, PUndefined | PNull, PNull => true
  | PBoolean a, PBoolean b => bool_decide (a = b)
  | PNumber a, PNumber b => PrimFloat.eqb a b
  | PString a, PString b => bool_decide (a = b)
  | _, _ => false
  end.

(** SameValueZero on primitives: [===], but [NaN] is the same as [NaN]. *)
Definition primitive_same_value_zero (x y : primitive) : bool :=
  match x, y with
  | PNumber a, PNumber b =>
      PrimFloat.eqb a b || (PrimFloat.is_nan a && PrimFloat.is_nan b)
  | _, _ => primitive_strict_equal x y
  end.

#[global] Instance primitive_comparable : Comparable primitive := {|
  same_value_zero := primitive_same_value_zero;
  strict_equal := primitive_strict_equal
|}.

(** When two floating-point numbers are equal, case by case. *)
Definition SFsame (x y : spec_float) : Prop :=
  match x, y with
  | S754_zero _, S754_zero _ => True
  | S754_infinity s1, S754_infinity s2 => s1 = s2
  | S754_finite s1 m1 e1, S754_finite s2 m2 e2 => s1 = s2 /\ m1 = m2 /\ e1 = e2
  | _, _ => False
  end.

(** ** More values to run the code on *)

(** The signed header with its pairs in the other order and a pair more. *)
Definition signed_header_reordered : string :=
  "v1=59e14c95ffd062ee860995aca3dae0c8c99e8c3b1df436ba09d6c81d1124be27,"
  +:+ "source=centra,t=1700000000".

(** The array of the tests of [toggle], [[1, 'foo', true]]. *)
Definition tested_array : list primitive :=
  [PNumber 1; PString "foo"; PBoolean true].

(** ** Tactics for closed goals *)

(** A goal without variables is settled by running it; a decidable
    proposition by running its decision procedure. *)
Ltac by_computation := vm_compute; try reflexivity; try done.
Ltac decide_by_computation := apply (bool_decide_unpack _); vm_compute; exact I.

(** * Properties *)

(** ** Splitting *)

Lemma append_cons (x : ascii) (a b : string) :
  String x a +:+ b = String x (a +:+ b).
Proof. done. Qed.

Lemma append_assoc (a b c : string) : (a +:+ b) +:+ c = a +:+ (b +:+ c).
Proof. induction a as [|x a IH]; [done|]. by rewrite !append_cons, IH. Qed.

Lemma split_not_nil sep s : split sep s <> [].
Proof.
  destruct s as [|c s]; simpl; [done|].
  case_bool_decide; [done|]. by destruct (split sep s).
Qed.

Lemma split_cons_ne sep c s :
  c <> sep ->
  exists piece pieces,
    split sep s = piece :: pieces /\
    split sep (String c s) = String c piece :: pieces.
Proof.
  intros Hc. simpl. rewrite bool_decide_eq_false_2 by done.
  destruct (split sep s) as [|piece pieces] eqn:E.
  - by apply split_not_nil in E.
  - by exists piece, pieces.
Qed.

(** Splitting distributes over a separator. *)
Lemma split_app sep a b :
  split sep (a +:+ String sep b) = split sep a ++ split sep b.
Proof.
  induction a as [|c a IH]; simpl.
  - by rewrite bool_decide_eq_true_2.
  - case_bool_decide; [by rewrite IH|].
    rewrite IH. destruct (split sep a) eqn:E; [|done].
    by apply split_not_nil in E.
Qed.

(** A string free of the separator is a single piece. *)
Lemma split_free sep s : free_of sep s -> split sep s = [s].
Proof.
  induction s as [|c s IH]; simpl; [done|].
  intros Hs. apply Forall_cons in Hs as [Hc Hs].
  rewrite bool_decide_eq_false_2 by done. by rewrite IH.
Qed.

Lemma free_of_app sep a b : free_of sep a -> free_of sep b -> free_of sep (a +:+ b).
Proof.
  unfold free_of. induction a as [|c a IH]; simpl; [done|].
  intros Ha Hb. apply Forall_cons in Ha as [Hc Ha]. apply Forall_cons. auto.
Qed.

(** [split] is what [String.prototype.split] is: the pieces hold no
    separator, and joined by the separator they give the string back. *)
Lemma split_pieces_free sep s : Forall (free_of sep) (split sep s).
Proof.
  induction s as [|c s IH]; simpl.
  - repeat constructor.
  - case_bool_decide as Hc.
    + constructor; [constructor|done].
    + destruct (split sep s) as [|piece pieces]; [by repeat constructor|].
      apply Forall_cons in IH as [Hpiece Hpieces].
      constructor; [by constructor|done].
Qed.

Lemma join_split sep s : join sep (split sep s) = s.
Proof.
  induction s as [|c s IH]; simpl; [done|].
  case_bool_decide as Hc.
  - subst c. destruct (split sep s) as [|piece pieces] eqn:E.
    + by apply split_not_nil in E.
    + by rewrite <- IH.
  - destruct (split sep s) as [|piece pieces] eqn:E.
    + by apply split_not_nil in E.
    + rewrite <- IH. by destruct pieces.
Qed.

Lemma split_join sep pieces :
  pieces <> [] -> Forall (free_of sep) pieces ->
  split sep (join sep pieces) = pieces.
Proof.
  induction pieces as [|piece pieces IH]; [done|]. intros _ Hfree.
  apply Forall_cons in Hfree as [Hpiece Hpieces].
  destruct pieces as [|next pieces].
  - simpl. by apply split_free.
  - change (join sep (piece :: next :: pieces))
      with (piece +:+ String sep (join sep (next :: pieces))).
    rewrite split_app, split_free by done. by rewrite IH.
Qed.

(** ** The parameters of the signature header *)

Lemma last_binding_nil key : last_binding key [] = None.
Proof. done. Qed.

Lemma last_binding_cons key pair pairs :
  last_binding key (pair :: pairs) =
    match last_binding key pairs with
    | Some v => Some v
    | None => if bool_decide (pair_key pair = key) then Some (pair_value pair) else None
    end.
Proof.
  unfold last_binding. rewrite filter_cons.
  case_decide as Hk.
  - rewrite bool_decide_eq_true_2 by done.
    destruct (filter _ pairs) as [|q qs] eqn:E; [done|].
    rewrite last_cons. by destruct (last (q :: qs)).
  - rewrite bool_decide_eq_false_2 by done.
    by destruct (last (filter _ pairs)).
Qed.

Lemma last_binding_app key pre post :
  last_binding key (pre ++ post) =
    match last_binding key post with
    | Some v => Some v
    | None => last_binding key pre
    end.
Proof.
  induction pre as [|p pre IH]; simpl.
  - by destruct (last_binding key post).
  - rewrite !last_binding_cons, IH. by destruct (last_binding key post).
Qed.

(** What the [reduce] leaves under a key that is not empty. *)
Lemma foldl_parameter_step_lookup acc pairs key :
  key <> "" ->
  foldl parameter_step acc pairs !! key =
    match last_binding key pairs with
    | Some v => Some v
    | None => acc !! key
    end.
Proof.
  intros Hkey. revert acc.
  induction pairs as [|p pairs IH]; intros acc; simpl; [done|].
  rewrite IH, last_binding_cons.
  destruct (last_binding key pairs); [done|].
  unfold parameter_step.
  case_bool_decide as Hp.
  - rewrite bool_decide_eq_false_2; [done|]. by rewrite Hp.
  - case_bool_decide as Hk.
    + rewrite Hk. by rewrite lookup_insert_eq.
    + by rewrite lookup_insert_ne.
Qed.

(** The empty key is never bound. *)
Lemma foldl_parameter_step_empty acc pairs :
  acc !! "" = None -> foldl parameter_step acc pairs !! "" = None.
Proof.
  revert acc. induction pairs as [|p pairs IH]; intros acc Hacc; simpl; [done|].
  apply IH. unfold parameter_step.
  case_bool_decide as Hp; [done|]. by rewrite lookup_insert_ne.
Qed.

Lemma parse_lookup input key :
  key <> "" ->
  parseNamedParametersString input !! key = last_binding key (split "," input).
Proof.
  intros Hkey. unfold parseNamedParametersString.
  rewrite foldl_parameter_step_lookup by done.
  by destruct (last_binding key (split "," input)).
Qed.

(** ** Computations *)

Lemma bind_normal {A B} (a : A) (t : list event) (f : A -> M B) :
  bind (Normal a, t) f = after t (f a).
Proof. unfold bind, after, outcome, trace. by destruct (f a). Qed.

Lemma bind_throw {A B} (e : exception) (t : list event) (f : A -> M B) :
  bind (Throw e, t) f = (Throw e, t).
Proof. done. Qed.

Lemma bind_ret {A B} (a : A) (f : A -> M B) : bind (ret a) f = f a.
Proof. unfold ret. rewrite bind_normal. unfold after. by destruct (f a). Qed.

Lemma after_nil {A} (m : M A) : after [] m = m.
Proof. by destruct m. Qed.

Lemma after_after {A} (t u : list event) (m : M A) :
  after t (after u m) = after (t ++ u) m.
Proof. unfold after. simpl. by rewrite app_assoc. Qed.

Lemma after_ret {A} (t : list event) (a : A) : after t (ret a) = (Normal a, t).
Proof. unfold after, ret. simpl. by rewrite app_nil_r. Qed.

Lemma after_pair {A} (t u : list event) (c : completion A) :
  after t (c, u) = (c, t ++ u).
Proof. done. Qed.

Create Rewrite HintDb run.
#[global] Hint Rewrite @bind_normal @bind_throw @bind_ret @after_after
  @after_ret @after_pair @after_nil @app_nil_r : run.

(** ** The raw body *)

Lemma parseRawBody_carries rawBody P :
  carries_payload rawBody P -> parseRawBody rawBody = Some {| payload := P |}.
Proof.
  intros (fields & -> & Hfield). unfold parseRawBody. simpl.
  by rewrite Hfield.
Qed.

Lemma parseRawBody_Some rawBody body :
  parseRawBody rawBody = Some body -> carries_payload rawBody (payload body).
Proof.
  unfold parseRawBody.
  destruct rawBody as [| |b|x|s|items|fields]; simpl;
    rewrite ?andb_false_r; try done.
  destruct (get_field "payload" fields) as [[]|] eqn:E; simpl;
    rewrite ?andb_false_r; try done.
  intros [= <-]. by exists fields.
Qed.

Lemma parseRawBody_None rawBody :
  (forall P, ~ carries_payload rawBody P) -> parseRawBody rawBody = None.
Proof.
  intros Hno. destruct (parseRawBody rawBody) as [body|] eqn:E; [|done].
  apply parseRawBody_Some in E. by apply Hno in E.
Qed.

(** ** The steps of the ingestor *)

Section Steps.
Context `{runtime : Runtime} {TRequest : Type}.
Implicit Types (config : CreateGetCentraWebhookEventsConfig TRequest)
               (request : TRequest).

Lemma method_refused_passes config request :
  method_check_passes config request ->
  method_refused config request = (Normal false, method_trace config).
Proof.
  unfold method_check_passes, method_refused, method_trace.
  destruct (isRequestMethodPost (adapter config)) as [isPost|]; [|done].
  by intros ->.
Qed.

(** The run up to the signature block, for a request that passes the method
    check and carries a payload. *)
Lemma run_to_signature config request rawBody P :
  method_check_passes config request ->
  getRawBody (adapter config) request = Normal rawBody ->
  carries_payload rawBody P ->
  createGetCentraWebhookEvents config request =
    after (method_trace config ++ [CallGetRawBody])
          (from_signature config request P).
Proof.
  intros Hm Hraw Hp. unfold createGetCentraWebhookEvents.
  rewrite (method_refused_passes _ _ Hm), Hraw.
  rewrite bind_normal. cbv beta iota. unfold lift. rewrite bind_normal.
  rewrite (parseRawBody_carries _ _ Hp). fold (from_signature config request P).
  by rewrite after_after.
Qed.

Lemma verify_signature_absent config s request body :
  getHeader (adapter config) request signature_header = Normal None ->
  verify_signature config s request body =
    (Normal (Some NoSignature), [CallGetHeader signature_header]).
Proof.
  intros Hh. unfold verify_signature. fold signature_header. rewrite Hh.
  unfold lift. by rewrite bind_normal.
Qed.

Lemma verify_signature_empty config s request body :
  getHeader (adapter config) request signature_header = Normal (Some "") ->
  verify_signature config s request body =
    (Normal (Some NoSignature), [CallGetHeader signature_header]).
Proof.
  intros Hh. unfold verify_signature. fold signature_header. rewrite Hh.
  unfold lift. by rewrite bind_normal.
Qed.

Lemma verify_signature_present config s request body header encoded :
  getHeader (adapter config) request signature_header = Normal (Some header) ->
  header <> "" ->
  encodeURIComponent (payload body) = Normal encoded ->
  verify_signature config s request body =
    let parameters := parseNamedParametersString header in
    if bool_decide (Some (expected_digest s parameters encoded)
                    <> parameter parameters "v1")
    then (Normal (Some InvalidSignature),
          [CallGetHeader signature_header; ConsoleError "Invalid signature"])
    else (Normal None, [CallGetHeader signature_header]).
Proof.
  intros Hh Hne Henc. unfold verify_signature. fold signature_header.
  rewrite Hh. unfold lift. rewrite bind_normal. cbv beta iota.
  rewrite bool_decide_eq_false_2 by done. rewrite Henc.
  rewrite bind_normal. cbv beta iota zeta. unfold expected_digest.
  case_bool_decide; [|done].
  unfold emit. by rewrite bind_normal.
Qed.

Lemma verify_signature_throws config s request body header e :
  getHeader (adapter config) request signature_header = Normal (Some header) ->
  header <> "" ->
  encodeURIComponent (payload body) = Throw e ->
  verify_signature config s request body =
    (Throw e, [CallGetHeader signature_header]).
Proof.
  intros Hh Hne Henc. unfold verify_signature. fold signature_header.
  rewrite Hh. unfold lift. rewrite bind_normal. cbv beta iota.
  rewrite bool_decide_eq_false_2 by done. by rewrite Henc.
Qed.
End Steps.

(** ** The header of a signed request *)

Lemma hex_string_free sep s :
  lower_hex sep = false -> hex_string s -> free_of sep s.
Proof.
  intros Hsep Hs. eapply Forall_impl; [exact Hs|].
  intros c Hc ->. congruence.
Qed.

Lemma timestamp_string_free sep s :
  digit sep = false -> timestamp_string s -> free_of sep s.
Proof.
  intros Hsep Hs. eapply Forall_impl; [exact Hs|].
  intros c Hc ->. congruence.
Qed.

Lemma split_key_value key v :
  free_of "=" key -> free_of "=" v ->
  split "=" (key +:+ String "=" v) = [key; v].
Proof.
  intros Hkey Hv. by rewrite split_app, !split_free.
Qed.

(** The header [t=T,v1=h] binds [t] to [T] and [v1] to [h]. *)
Lemma parse_signed_header T h :
  free_of "," T -> free_of "=" T -> free_of "," h -> free_of "=" h ->
  parseNamedParametersString ("t=" +:+ T +:+ ",v1=" +:+ h) =
    <["v1" := Some h]> (<["t" := Some T]> ∅).
Proof.
  intros HT1 HT2 Hh1 Hh2. unfold parseNamedParametersString.
  replace ("t=" +:+ T +:+ ",v1=" +:+ h)
    with (("t=" +:+ T) +:+ String "," ("v1=" +:+ h)).
  2:{ by rewrite append_assoc. }
  rewrite split_app.
  rewrite (split_free "," ("t=" +:+ T)).
  2:{ apply (free_of_app _ "t="); [|done]. by repeat constructor. }
  rewrite (split_free "," ("v1=" +:+ h)).
  2:{ apply (free_of_app _ "v1="); [|done]. by repeat constructor. }
  simpl. unfold parameter_step, pair_key, pair_value.
  change ("t=" +:+ T) with ("t" +:+ String "=" T).
  change ("v1=" +:+ h) with ("v1" +:+ String "=" h).
  rewrite !split_key_value by (done || by repeat constructor).
  done.
Qed.

(** ** Runs of the reference runtime *)

(** The messages of the four failures, as the source writes them. *)
Example failure_messages :
  InvalidRequestMethod = CentraWebhookEventsError [ {| message := "Invalid request method" |} ]
  /\ InvalidRequestBody = CentraWebhookEventsError [ {| message := "Invalid request body" |} ]
  /\ NoSignature = CentraWebhookEventsError [ {| message := "No signature" |} ]
  /\ InvalidSignature = CentraWebhookEventsError [ {| message := "Invalid signature" |} ].
Proof. done. Qed.

Example sign_products :
  sign (runtime := node) "secret"
       ("1700000000.payload=%7B%22products%22%3A%5B%221%22%5D%7D")
  = "59e14c95ffd062ee860995aca3dae0c8c99e8c3b1df436ba09d6c81d1124be27".
Proof. by vm_compute. Qed.

Example encode_products :
  encodeURIComponent (Runtime := node) products_payload
  = Normal "%7B%22products%22%3A%5B%221%22%5D%7D".
Proof. by vm_compute. Qed.

Example parse_products :
  JSON_parse (Runtime := node) products_payload = Normal products_events.
Proof. by vm_compute. Qed.

Example pages_signed_request :
  createGetCentraWebhookEvents (runtime := node) (pages_config (Some "secret"))
    (pages_request "POST" (Some signed_header) (payload_body products_payload))
  = (Normal (CentraWebhookEventsData products_events),
     [CallIsRequestMethodPost; CallGetRawBody; CallGetHeader "x-centra-signature"]).
Proof. by vm_compute. Qed.

Example pages_repeated_header :
  getHeader nextPagesRouterAdapter
    {| method := Some "POST";
       headers := {[ "x-centra-signature" := RepeatedHeader ["a"; "b"] ]};
       body := VNull |} "x-centra-signature"
  = Throw (GenericError "Multiple headers with same key passed.").
Proof. by vm_compute. Qed.

Example app_form_request :
  createGetCentraWebhookEvents (runtime := node) (app_config None)
    {| headers_get := fun _ => None;
       formData := Normal [("payload", VString "[]"); ("payload", VString "{}")] |}
  = (Normal (CentraWebhookEventsData (VObject [])), [CallGetRawBody]).
Proof. by vm_compute. Qed.

(** ** Pairs the verification does not read *)

Lemma last_binding_extra key pre extra post :
  pair_key extra <> key ->
  last_binding key (pre ++ extra :: post) = last_binding key (pre ++ post).
Proof.
  intros Hkey. rewrite !last_binding_app, last_binding_cons.
  rewrite bool_decide_eq_false_2 by done.
  by destruct (last_binding key post).
Qed.

Lemma parameter_extra key header header' pre extra post :
  key <> "" ->
  split "," header = pre ++ post ->
  split "," header' = pre ++ extra :: post ->
  pair_key extra <> key ->
  parameter (parseNamedParametersString header') key
    = parameter (parseNamedParametersString header) key.
Proof.
  intros Hkey Hsplit Hsplit' Hextra. unfold parameter.
  rewrite !parse_lookup by done.
  by rewrite Hsplit, Hsplit', last_binding_extra.
Qed.

Lemma extended_header_not_empty header header' pre extra post :
  split "," header = pre ++ post ->
  split "," header' = pre ++ extra :: post ->
  header' <> "".
Proof.
  intros Hsplit Hsplit' ->. simpl in Hsplit'.
  destruct pre as [|p pre].
  - injection Hsplit' as _ <-. by apply split_not_nil in Hsplit.
  - injection Hsplit' as _ Hnil. by destruct pre.
Qed.

Lemma key_value_rest key value rest :
  free_of "=" key -> free_of "=" value ->
  pair_key (key +:+ "=" +:+ value +:+ "=" +:+ rest) = key /\
  pair_value (key +:+ "=" +:+ value +:+ "=" +:+ rest) = Some value.
Proof.
  intros Hkey Hvalue. unfold pair_key, pair_value.
  change (key +:+ "=" +:+ value +:+ "=" +:+ rest)
    with (key +:+ String "=" (value +:+ String "=" rest)).
  rewrite !split_app, (split_free _ key), (split_free _ value) by done.
  done.
Qed.

(** * The claims of the specification *)

Section Claims.
Context `{runtime : Runtime} {TRequest : Type}.
Implicit Types (config : CreateGetCentraWebhookEventsConfig TRequest)
               (request : TRequest).

(** C5.  When the adapter defines [isRequestMethodPost] and the predicate
    returns false on the request, the ingestor yields the one error
    [InvalidRequestMethod] and has called nothing but the predicate:
    neither [getRawBody] nor [getHeader] is invoked, and the run is the same
    whatever they, and the secret, are. *)
Theorem invalid_request_method config request isPost :
  isRequestMethodPost (adapter config) = Some isPost ->
  isPost request = Normal false ->
  createGetCentraWebhookEvents config request
    = (Normal InvalidRequestMethod, [CallIsRequestMethodPost])
  /\ forall config',
       isRequestMethodPost (adapter config') = Some isPost ->
       createGetCentraWebhookEvents config' request
         = createGetCentraWebhookEvents config request.
Proof.
  intros Hdef Hfalse.
  assert (Hrun : forall c, isRequestMethodPost (adapter c) = Some isPost ->
            createGetCentraWebhookEvents c request
              = (Normal InvalidRequestMethod, [CallIsRequestMethodPost])).
  { intros c Hc. unfold createGetCentraWebhookEvents, method_refused.
    rewrite Hc, Hfalse. unfold lift. by rewrite !bind_normal. }
  split; [by apply Hrun|].
  intros config' Hdef'. by rewrite !Hrun.
Qed.

(** C8.  With or without a secret, a request that passes the method check
    and whose raw body is not an object with a string field [payload]
    yields the one error [InvalidRequestBody]; the header has not been read,
    and the run is the same whatever the secret and the headers are. *)
Theorem invalid_request_body config request rawBody :
  method_check_passes config request ->
  getRawBody (adapter config) request = Normal rawBody ->
  (forall P, ~ carries_payload rawBody P) ->
  createGetCentraWebhookEvents config request
    = (Normal InvalidRequestBody, method_trace config ++ [CallGetRawBody])
  /\ forall s g,
       createGetCentraWebhookEvents (with_getHeader (with_secret config s) g)
         request
       = createGetCentraWebhookEvents config request.
Proof.
  intros Hm Hraw Hno.
  assert (Hrun : forall c,
            method_check_passes c request ->
            getRawBody (adapter c) request = Normal rawBody ->
            createGetCentraWebhookEvents c request
              = (Normal InvalidRequestBody, method_trace c ++ [CallGetRawBody])).
  { intros c Hcm Hcraw. unfold createGetCentraWebhookEvents.
    rewrite (method_refused_passes _ _ Hcm), Hcraw.
    rewrite bind_normal. cbv beta iota. unfold lift. rewrite bind_normal.
    rewrite (parseRawBody_None _ Hno). by autorewrite with run. }
  split; [by apply Hrun|].
  intros s g. by rewrite !Hrun.
Qed.

(** C7.  With a secret configured, a request that has come past the method
    check and the body check and has no signature header yields the one
    error [NoSignature]. *)
Theorem no_signature config s request rawBody P :
  configured_secret config = Some s ->
  method_check_passes config request ->
  getRawBody (adapter config) request = Normal rawBody ->
  carries_payload rawBody P ->
  getHeader (adapter config) request signature_header = Normal None ->
  createGetCentraWebhookEvents config request
    = (Normal NoSignature,
       method_trace config ++ [CallGetRawBody; CallGetHeader signature_header]).
Proof.
  intros Hs Hm Hraw Hp Hh.
  rewrite (run_to_signature _ _ _ _ Hm Hraw Hp). unfold from_signature.
  rewrite Hs, (verify_signature_absent _ _ _ _ Hh).
  autorewrite with run. by rewrite <- app_assoc.
Qed.

(** C6.  With a secret configured, a request that has come past the method
    check and the body check and whose signature header has a [v1] that is
    not the digest of [t.payload=encodeURIComponent(payload)] yields the one
    error [InvalidSignature], after one line on the error console. *)
Theorem invalid_signature config s request rawBody P header encoded :
  configured_secret config = Some s ->
  method_check_passes config request ->
  getRawBody (adapter config) request = Normal rawBody ->
  carries_payload rawBody P ->
  getHeader (adapter config) request signature_header = Normal (Some header) ->
  header <> "" ->
  encodeURIComponent P = Normal encoded ->
  parameter (parseNamedParametersString header) "v1"
    <> Some (expected_digest s (parseNamedParametersString header) encoded) ->
  createGetCentraWebhookEvents config request
    = (Normal InvalidSignature,
       method_trace config
         ++ [CallGetRawBody; CallGetHeader signature_header;
             ConsoleError "Invalid signature"]).
Proof.
  intros Hs Hm Hraw Hp Hh Hne Henc Hv1.
  rewrite (run_to_signature _ _ _ _ Hm Hraw Hp). unfold from_signature.
  rewrite Hs, (verify_signature_present _ _ _ {| payload := P |} _ _ Hh Hne Henc).
  cbv zeta. rewrite bool_decide_eq_true_2 by congruence.
  autorewrite with run. by rewrite <- app_assoc.
Qed.

(** C4.  With no secret configured, a request that has come past the
    method check and carries a string [payload] completes as
    [JSON.parse(payload)] does, with the parsed value in the success pair;
    the header is not read, and the run is the same however the adapter
    reads headers. *)
Theorem no_secret_skips_signature config request rawBody P :
  configured_secret config = None ->
  method_check_passes config request ->
  getRawBody (adapter config) request = Normal rawBody ->
  carries_payload rawBody P ->
  createGetCentraWebhookEvents config request
    = (completion_map CentraWebhookEventsData (JSON_parse P),
       method_trace config ++ [CallGetRawBody])
  /\ forall g,
       createGetCentraWebhookEvents (with_getHeader config g) request
         = createGetCentraWebhookEvents config request.
Proof.
  intros Hs Hm Hraw Hp.
  assert (Hrun : forall c,
            configured_secret c = None ->
            method_check_passes c request ->
            getRawBody (adapter c) request = Normal rawBody ->
            createGetCentraWebhookEvents c request
              = (completion_map CentraWebhookEventsData (JSON_parse P),
                 method_trace c ++ [CallGetRawBody])).
  { intros c Hc Hcm Hcraw.
    rewrite (run_to_signature _ _ _ _ Hcm Hcraw Hp). unfold from_signature.
    rewrite Hc, bind_ret.
    destruct (JSON_parse P) as [v|e]; by autorewrite with run. }
  split; [by apply Hrun|].
  intros g. by rewrite !Hrun.
Qed.

(** C9.  With a secret configured and a signature header that holds no
    [t], there is no error of its own for the missing timestamp: the digest
    is computed over [undefined.payload=encodeURIComponent(payload)], and the
    request is refused with [InvalidSignature] unless [v1] is exactly that
    digest, in which case it goes on to [JSON.parse]. *)
Theorem missing_timestamp config s request rawBody P header encoded :
  configured_secret config = Some s ->
  method_check_passes config request ->
  getRawBody (adapter config) request = Normal rawBody ->
  carries_payload rawBody P ->
  getHeader (adapter config) request signature_header = Normal (Some header) ->
  header <> "" ->
  encodeURIComponent P = Normal encoded ->
  parameter (parseNamedParametersString header) "t" = None ->
  outcome (createGetCentraWebhookEvents config request)
    = if bool_decide (parameter (parseNamedParametersString header) "v1"
                      = Some (sign s ("undefined.payload=" +:+ encoded)))
      then completion_map CentraWebhookEventsData (JSON_parse P)
      else Normal InvalidSignature.
Proof.
  intros Hs Hm Hraw Hp Hh Hne Henc Ht.
  rewrite (run_to_signature _ _ _ _ Hm Hraw Hp). unfold from_signature.
  rewrite Hs, (verify_signature_present _ _ _ {| payload := P |} _ _ Hh Hne Henc).
  cbv zeta. unfold expected_digest. rewrite Ht.
  change (template_string None +:+ ".payload=" +:+ encoded)
    with ("undefined.payload=" +:+ encoded).
  case_bool_decide as Hv1.
  - rewrite bool_decide_eq_false_2 by congruence.
    rewrite bind_normal. by unfold after, ret.
  - rewrite bool_decide_eq_true_2 by congruence.
    rewrite bind_normal. unfold after, outcome. simpl.
    by destruct (JSON_parse P).
Qed.

(** C1.  Round trip: with the secret [S], a request that passes the method
    check, whose raw body carries the payload [P] and whose signature header
    is [t=T,v1=h], where [h] is the lowercase hexadecimal digest under [S] of
    [T.payload=encodeURIComponent(P)], yields the success pair with
    [JSON.parse(P)].  [T] is any string without comma and equals sign, as
    every timestamp (a string of digits) is. *)
Theorem round_trip config S request rawBody T P encoded events :
  secret config = Some S ->
  method_check_passes config request ->
  getRawBody (adapter config) request = Normal rawBody ->
  carries_payload rawBody P ->
  free_of "," T -> free_of "=" T ->
  encodeURIComponent P = Normal encoded ->
  JSON_parse P = Normal events ->
  hex_string (sign S (T +:+ ".payload=" +:+ encoded)) ->
  getHeader (adapter config) request signature_header
    = Normal (Some ("t=" +:+ T +:+ ",v1=" +:+ sign S (T +:+ ".payload=" +:+ encoded))) ->
  outcome (createGetCentraWebhookEvents config request)
    = Normal (CentraWebhookEventsData events).
Proof.
  intros HS Hm Hraw Hp HT1 HT2 Henc Hjson Hhex Hh.
  rewrite (run_to_signature _ _ _ _ Hm Hraw Hp). unfold from_signature.
  assert (Hdecode :
    outcome (let* payloadParsed := (JSON_parse P, []) in
             ret (CentraWebhookEventsData payloadParsed))
      = Normal (CentraWebhookEventsData events)).
  { by rewrite Hjson, bind_normal. }
  unfold configured_secret. rewrite HS. case_bool_decide as Hempty.
  - by rewrite bind_ret.
  - rewrite (verify_signature_present config S request {| payload := P |}
               _ encoded Hh); [|done|done].
    cbv zeta. unfold expected_digest.
    rewrite parse_signed_header;
      [|done|done|by apply hex_string_free|by apply hex_string_free].
    unfold parameter.
    rewrite lookup_insert_eq, lookup_insert_ne, lookup_insert_eq by done.
    simpl. rewrite bool_decide_eq_false_2 by (intros Hneq; by apply Hneq).
    by rewrite bind_normal.
Qed.
(** C2, amended.  The parser splits the header on the commas and every pair
    on all its equals signs, and binds the first piece to the second: a pair
    [key=value=rest] binds [key] to [value].  A pair whose key is empty is
    dropped.  A further pair whose key is neither [t] nor [v1], put anywhere
    into a header that is not empty, changes nothing in the run. *)
Theorem parameters_and_extra_pairs config request request'
    header header' pre extra post key value rest :
  key <> "" -> free_of "=" key -> free_of "=" value ->
  free_of "," (key +:+ "=" +:+ value +:+ "=" +:+ rest) ->
  (forall isPost, isRequestMethodPost (adapter config) = Some isPost ->
                  isPost request' = isPost request) ->
  getRawBody (adapter config) request' = getRawBody (adapter config) request ->
  getHeader (adapter config) request signature_header = Normal (Some header) ->
  getHeader (adapter config) request' signature_header = Normal (Some header') ->
  header <> "" ->
  split "," header = pre ++ post ->
  split "," header' = pre ++ extra :: post ->
  pair_key extra <> "t" -> pair_key extra <> "v1" ->
  parseNamedParametersString (key +:+ "=" +:+ value +:+ "=" +:+ rest)
    = {[ key := Some value ]}
  /\ (forall acc pair, pair_key pair = "" -> parameter_step acc pair = acc)
  /\ (forall input, parseNamedParametersString input !! "" = None)
  /\ createGetCentraWebhookEvents config request'
      = createGetCentraWebhookEvents config request.
Proof.
  intros Hkey Hk Hv Hcomma Hpost Hraw Hh Hh' Hne Hsplit Hsplit' Ht Hv1.
  split; [|split; [|split]].
  - unfold parseNamedParametersString. rewrite split_free by done.
    simpl. unfold parameter_step.
    destruct (key_value_rest key value rest Hk Hv) as [-> ->].
    by rewrite bool_decide_eq_false_2.
  - intros acc pair Hpair. unfold parameter_step.
    by rewrite bool_decide_eq_true_2.
  - intros input. by apply foldl_parameter_step_empty.
  - assert (Hne' : header' <> "")
      by exact (extended_header_not_empty _ _ _ _ _ Hsplit Hsplit').
    assert (Hmethod : method_refused config request'
                      = method_refused config request).
    { unfold method_refused.
      destruct (isRequestMethodPost (adapter config)) as [isPost|] eqn:E;
        [|done].
      by rewrite (Hpost isPost). }
    assert (Hverify : forall s body,
              verify_signature config s request' body
              = verify_signature config s request body).
    { intros s body. unfold verify_signature. fold signature_header.
      rewrite Hh, Hh'. unfold lift. rewrite !bind_normal. cbv beta iota.
      rewrite !bool_decide_eq_false_2 by done. cbv zeta.
      rewrite (parameter_extra "t" header header' pre extra post) by done.
      by rewrite (parameter_extra "v1" header header' pre extra post). }
    unfold createGetCentraWebhookEvents. rewrite Hmethod, Hraw.
    destruct (method_refused config request) as [[[]|e] t]; try done.
    rewrite !bind_normal. cbv beta iota. f_equal.
    destruct (getRawBody (adapter config) request) as [rawBody|e]; [|done].
    unfold lift. rewrite !bind_normal. f_equal.
    destruct (parseRawBody rawBody) as [body|]; [|done].
    destruct (configured_secret config) as [s|]; [|done].
    by rewrite Hverify.
Qed.
(** C3, amended.  When the adapter functions do not throw, each of the four
    failures is returned as data, a list of one error object, and the
    promise rejects only with what [encodeURIComponent] or [JSON.parse] threw
    on the payload string.  It does reject: with no secret configured, a
    payload that [JSON.parse] refuses makes the promise reject with the
    exception of [JSON.parse]. *)
Theorem failures_are_data config request rawBody headerValue :
  (forall isPost, isRequestMethodPost (adapter config) = Some isPost ->
                  exists b, isPost request = Normal b) ->
  getRawBody (adapter config) request = Normal rawBody ->
  getHeader (adapter config) request signature_header = Normal headerValue ->
  data_or_decoding_failure rawBody
    (outcome (createGetCentraWebhookEvents config request))
  /\ forall P e,
       method_check_passes config request ->
       carries_payload rawBody P ->
       configured_secret config = None ->
       JSON_parse P = Throw e ->
       outcome (createGetCentraWebhookEvents config request) = Throw e.
Proof.
  intros Hpost Hraw Hh. split.
  2:{ intros P e Hm Hp Hs Hjson.
      rewrite (run_to_signature _ _ _ _ Hm Hraw Hp). unfold from_signature.
      rewrite Hs, Hjson. by autorewrite with run. }
  assert (Hdecode : forall P t,
    carries_payload rawBody P ->
    data_or_decoding_failure rawBody
      (outcome (after t (let* payloadParsed := (JSON_parse P, []) in
                         ret (CentraWebhookEventsData payloadParsed))))).
  { intros P t Hp. destruct (JSON_parse P) as [events|e] eqn:E.
    - rewrite bind_normal. simpl. right. by exists P, events.
    - simpl. exists P. auto. }
  assert (Hpass : method_check_passes config request \/
                  exists isPost, isRequestMethodPost (adapter config) = Some isPost
                                 /\ isPost request = Normal false).
  { unfold method_check_passes.
    destruct (isRequestMethodPost (adapter config)) as [isPost|]; [|by left].
    destruct (Hpost isPost eq_refl) as [[] Hb]; [by left|right; eauto]. }
  destruct Hpass as [Hm|(isPost & Hdef & Hfalse)].
  2:{ unfold createGetCentraWebhookEvents, method_refused.
      rewrite Hdef, Hfalse. unfold lift. rewrite !bind_normal.
      left. set_solver. }
  destruct (parseRawBody rawBody) as [body|] eqn:Hbody.
  2:{ unfold createGetCentraWebhookEvents.
      rewrite (method_refused_passes _ _ Hm), Hraw.
      rewrite bind_normal. cbv beta iota. unfold lift. rewrite bind_normal.
      rewrite Hbody. left. set_solver. }
  apply parseRawBody_Some in Hbody. destruct body as [P]. simpl in Hbody.
  rewrite (run_to_signature _ _ _ _ Hm Hraw Hbody). unfold from_signature.
  destruct (configured_secret config) as [s|].
  2:{ rewrite bind_ret. by apply Hdecode. }
  destruct headerValue as [header|].
  2:{ rewrite (verify_signature_absent _ _ _ _ Hh), bind_normal.
      left. set_solver. }
  destruct (decide (header = "")) as [->|Hne].
  { rewrite (verify_signature_empty _ _ _ _ Hh), bind_normal.
    left. set_solver. }
  destruct (encodeURIComponent P) as [encoded|e] eqn:Henc.
  2:{ rewrite (verify_signature_throws _ _ _ {| payload := P |} _ _ Hh Hne Henc).
      exists P. auto. }
  rewrite (verify_signature_present _ _ _ {| payload := P |} _ _ Hh Hne Henc).
  cbv zeta. case_bool_decide.
  - rewrite bind_normal. left. set_solver.
  - rewrite bind_normal, after_after. by apply Hdecode.
Qed.
End Claims.

(** ** The header as it is written *)





Example repeated_timestamp :
  parseNamedParametersString "t=1,t=2" !! "t" = Some (Some "2").
Proof. by vm_compute. Qed.

Example empty_segments :
  parseNamedParametersString ",,t=1,=x," = {[ "t" := Some "1" ]}.
Proof. by vm_compute. Qed.

(** * The claims at work

    Each claim is run on a request of the pages router under the reference
    runtime. *)


Lemma round_trip_witness :
  outcome
    (createGetCentraWebhookEvents (runtime := node) (pages_config (Some "secret"))
       (pages_request "POST" (Some signed_header) (payload_body products_payload)))
  = Normal (CentraWebhookEventsData products_events).
Proof.
  apply (round_trip (runtime := node) (pages_config (Some "secret")) "secret"
           (pages_request "POST" (Some signed_header) (payload_body products_payload))
           (payload_body products_payload) "1700000000" products_payload
           "%7B%22products%22%3A%5B%221%22%5D%7D" products_events).
  - reflexivity.
  - reflexivity.
  - reflexivity.
  - eexists. split; reflexivity.
  - apply timestamp_string_free; [reflexivity|].
    unfold timestamp_string. decide_by_computation.
  - apply timestamp_string_free; [reflexivity|].
    unfold timestamp_string. decide_by_computation.
  - by_computation.
  - by_computation.
  - unfold hex_string. decide_by_computation.
  - by_computation.
Defined.

Lemma invalid_request_method_witness :
  createGetCentraWebhookEvents (runtime := node) (pages_config (Some "secret"))
    (pages_request "GET" (Some signed_header) (payload_body products_payload))
  = (Normal InvalidRequestMethod, [CallIsRequestMethodPost]).
Proof.
  refine (proj1 (invalid_request_method (runtime := node)
                   (pages_config (Some "secret"))
                   (pages_request "GET" (Some signed_header)
                      (payload_body products_payload))
                   (fun request => Normal (bool_decide (method request = Some "POST")))
                   _ _)).
  - reflexivity.
  - reflexivity.
Defined.

Lemma invalid_request_body_witness :
  createGetCentraWebhookEvents (runtime := node) (pages_config (Some "secret"))
    (pages_request "POST" (Some signed_header) (VObject [("payload", VNull)]))
  = (Normal InvalidRequestBody, [CallIsRequestMethodPost; CallGetRawBody]).
Proof.
  refine (proj1 (invalid_request_body (runtime := node) (pages_config (Some "secret"))
                   (pages_request "POST" (Some signed_header)
                      (VObject [("payload", VNull)]))
                   (VObject [("payload", VNull)]) _ _ _)).
  - reflexivity.
  - reflexivity.
  - intros P (fields & Hobject & Hfield).
    injection Hobject as <-. vm_compute in Hfield. discriminate.
Defined.

Lemma no_signature_witness :
  createGetCentraWebhookEvents (runtime := node) (pages_config (Some "secret"))
    (pages_request "POST" None (payload_body products_payload))
  = (Normal NoSignature,
     [CallIsRequestMethodPost; CallGetRawBody; CallGetHeader "x-centra-signature"]).
Proof.
  apply (no_signature (runtime := node) (pages_config (Some "secret")) "secret"
           (pages_request "POST" None (payload_body products_payload))
           (payload_body products_payload) products_payload).
  - reflexivity.
  - reflexivity.
  - reflexivity.
  - eexists. split; reflexivity.
  - reflexivity.
Defined.

Lemma invalid_signature_witness :
  createGetCentraWebhookEvents (runtime := node) (pages_config (Some "secret"))
    (pages_request "POST" (Some "t=1700000000,v1=deadbeef")
       (payload_body products_payload))
  = (Normal InvalidSignature,
     [CallIsRequestMethodPost; CallGetRawBody;
      CallGetHeader "x-centra-signature"; ConsoleError "Invalid signature"]).
Proof.
  apply (invalid_signature (runtime := node) (pages_config (Some "secret")) "secret"
           (pages_request "POST" (Some "t=1700000000,v1=deadbeef")
              (payload_body products_payload))
           (payload_body products_payload) products_payload
           "t=1700000000,v1=deadbeef" "%7B%22products%22%3A%5B%221%22%5D%7D").
  - reflexivity.
  - reflexivity.
  - reflexivity.
  - eexists. split; reflexivity.
  - by_computation.
  - discriminate.
  - by_computation.
  - vm_compute. discriminate.
Defined.

Lemma no_secret_skips_signature_witness :
  createGetCentraWebhookEvents (runtime := node) (pages_config None)
    (pages_request "POST" (Some "t=1700000000,v1=deadbeef")
       (payload_body products_payload))
  = (Normal (CentraWebhookEventsData products_events),
     [CallIsRequestMethodPost; CallGetRawBody]).
Proof.
  refine (proj1 (no_secret_skips_signature (runtime := node) (pages_config None)
                   (pages_request "POST" (Some "t=1700000000,v1=deadbeef")
                      (payload_body products_payload))
                   (payload_body products_payload) products_payload _ _ _ _)).
  - reflexivity.
  - reflexivity.
  - reflexivity.
  - eexists. split; reflexivity.
Defined.

Lemma missing_timestamp_witness :
  outcome
    (createGetCentraWebhookEvents (runtime := node) (pages_config (Some "secret"))
       (pages_request "POST"
          (Some "v1=deadbeef")
          (payload_body products_payload)))
  = Normal InvalidSignature.
Proof.
  apply (missing_timestamp (runtime := node) (pages_config (Some "secret")) "secret"
           (pages_request "POST"
              (Some "v1=deadbeef")
              (payload_body products_payload))
           (payload_body products_payload) products_payload
           "v1=deadbeef"
           "%7B%22products%22%3A%5B%221%22%5D%7D").
  - reflexivity.
  - reflexivity.
  - reflexivity.
  - eexists. split; reflexivity.
  - by_computation.
  - discriminate.
  - by_computation.
  - by_computation.
Defined.

(** The digest of [undefined.payload=...] is accepted from a header without
    timestamp. *)
Example undefined_timestamp_accepted :
  createGetCentraWebhookEvents (runtime := node) (pages_config (Some "secret"))
    (pages_request "POST"
       (Some "v1=1f861578d7198d42b2ddad68e2ce27edb0f05c66516c728bb529a91e5aef5b74")
       (payload_body products_payload))
  = (Normal (CentraWebhookEventsData products_events),
     [CallIsRequestMethodPost; CallGetRawBody; CallGetHeader "x-centra-signature"]).
Proof. by vm_compute. Qed.

(** C2 as the specification words it fails: the pair [k=a=b] binds [k] to
    [a], the piece between the first two equals signs, not to [a=b]. *)
Lemma first_equals_only_fails :
  parseNamedParametersString "k=a=b" !! "k" = Some (Some "a")
  /\ parseNamedParametersString "k=a=b" !! "k" <> Some (Some "a=b").
Proof. split; [by vm_compute|]. vm_compute. discriminate. Qed.

Lemma parameters_and_extra_pairs_witness :
  parseNamedParametersString "k=a=b" = {[ "k" := Some "a" ]}
  /\ (forall acc pair, pair_key pair = "" -> parameter_step acc pair = acc)
  /\ (forall input, parseNamedParametersString input !! "" = None)
  /\ createGetCentraWebhookEvents (runtime := node) (pages_config (Some "secret"))
       (pages_request "POST"
          (Some ("t=1700000000,source=centra,"
                 +:+ "v1=59e14c95ffd062ee860995aca3dae0c8c99e8c3b1df436ba09d6c81d1124be27"))
          (payload_body products_payload))
     = createGetCentraWebhookEvents (runtime := node) (pages_config (Some "secret"))
         (pages_request "POST" (Some signed_header) (payload_body products_payload)).
Proof.
  apply (parameters_and_extra_pairs (runtime := node) (pages_config (Some "secret"))
           (pages_request "POST" (Some signed_header) (payload_body products_payload))
           (pages_request "POST"
              (Some ("t=1700000000,source=centra,"
                     +:+ "v1=59e14c95ffd062ee860995aca3dae0c8c99e8c3b1df436ba09d6c81d1124be27"))
              (payload_body products_payload))
           signed_header
           ("t=1700000000,source=centra,"
            +:+ "v1=59e14c95ffd062ee860995aca3dae0c8c99e8c3b1df436ba09d6c81d1124be27")
           ["t=1700000000"] "source=centra"
           ["v1=59e14c95ffd062ee860995aca3dae0c8c99e8c3b1df436ba09d6c81d1124be27"]
           "k" "a" "b").
  - discriminate.
  - unfold free_of. decide_by_computation.
  - unfold free_of. decide_by_computation.
  - unfold free_of. decide_by_computation.
  - intros isPost [= <-]. reflexivity.
  - reflexivity.
  - by_computation.
  - by_computation.
  - discriminate.
  - by_computation.
  - by_computation.
  - vm_compute. discriminate.
  - vm_compute. discriminate.
Defined.

(** C3 as the specification words it fails: a payload that is not JSON makes
    the promise reject, although no adapter function throws. *)
Lemma invalid_json_rejects :
  outcome
    (createGetCentraWebhookEvents (runtime := node) (pages_config None)
       (pages_request "POST" None (payload_body "not json")))
  = Throw SyntaxError
  /\ ~ exists result,
         outcome
           (createGetCentraWebhookEvents (runtime := node) (pages_config None)
              (pages_request "POST" None (payload_body "not json")))
         = Normal result.
Proof.
  split; [by vm_compute|]. intros [result Hresult].
  vm_compute in Hresult. discriminate.
Qed.

Lemma failures_are_data_witness :
  data_or_decoding_failure (runtime := node) (payload_body "not json")
    (outcome
       (createGetCentraWebhookEvents (runtime := node) (pages_config None)
          (pages_request "POST" None (payload_body "not json"))))
  /\ forall P e,
       method_check_passes (pages_config None)
         (pages_request "POST" None (payload_body "not json")) ->
       carries_payload (payload_body "not json") P ->
       configured_secret (pages_config None) = None ->
       JSON_parse (Runtime := node) P = Throw e ->
       outcome
         (createGetCentraWebhookEvents (runtime := node) (pages_config None)
            (pages_request "POST" None (payload_body "not json")))
       = Throw e.
Proof.
  apply (failures_are_data (runtime := node) (pages_config None)
           (pages_request "POST" None (payload_body "not json"))
           (payload_body "not json") None).
  - intros isPost [= <-]. by eexists.
  - reflexivity.
  - by_computation.
Defined.


(** * Further properties *)

(** ** The ends of a run *)

Section Ends.
Context `{runtime : Runtime} {TRequest : Type}.
Implicit Types (config : CreateGetCentraWebhookEventsConfig TRequest)
               (request : TRequest).

Lemma decode_after (t : list event) (P : string) :
  after t (let* payloadParsed := (JSON_parse P, []) in
           ret (CentraWebhookEventsData payloadParsed))
  = (completion_map CentraWebhookEventsData (JSON_parse P), t).
Proof. destruct (JSON_parse P); by autorewrite with run. Qed.

Lemma verify_signature_header_throws config s request body e :
  getHeader (adapter config) request signature_header = Throw e ->
  verify_signature config s request body
    = (Throw e, [CallGetHeader signature_header]).
Proof.
  intros Hh. unfold verify_signature. fold signature_header. by rewrite Hh.
Qed.

Lemma run_ends_passed config request :
  method_check_passes config request ->
  ends config request (createGetCentraWebhookEvents config request).
Proof.
  intros Hm.
  destruct (getRawBody (adapter config) request) as [rawBody|e] eqn:Hraw.
  2:{ unfold createGetCentraWebhookEvents.
      rewrite (method_refused_passes _ _ Hm), Hraw.
      rewrite bind_normal. cbv beta iota. unfold lift.
      autorewrite with run. by apply ends_body_throws. }
  destruct (parseRawBody rawBody) as [[P]|] eqn:Hbody.
  2:{ unfold createGetCentraWebhookEvents.
      rewrite (method_refused_passes _ _ Hm), Hraw.
      rewrite bind_normal. cbv beta iota. unfold lift. rewrite bind_normal, Hbody.
      autorewrite with run. by eapply ends_body_refused. }
  apply parseRawBody_Some in Hbody. simpl in Hbody.
  rewrite (run_to_signature _ _ _ _ Hm Hraw Hbody). unfold from_signature.
  destruct (configured_secret config) as [s|] eqn:Hs.
  2:{ rewrite bind_ret, decode_after. by eapply ends_unverified. }
  destruct (getHeader (adapter config) request signature_header)
    as [[header|]|e] eqn:Hh.
  3:{ rewrite (verify_signature_header_throws _ _ _ _ _ Hh).
      autorewrite with run. rewrite <- app_assoc. by eapply ends_header_throws. }
  2:{ rewrite (verify_signature_absent _ _ _ _ Hh).
      autorewrite with run. rewrite <- app_assoc.
      eapply ends_no_signature; eauto. }
  destruct (decide (header = "")) as [->|Hne].
  { rewrite (verify_signature_empty _ _ _ _ Hh).
    autorewrite with run. rewrite <- app_assoc.
    eapply ends_no_signature; eauto. }
  destruct (encodeURIComponent P) as [encoded|e] eqn:Henc.
  2:{ rewrite (verify_signature_throws _ _ _ {| payload := P |} _ _ Hh Hne Henc).
      autorewrite with run. rewrite <- app_assoc. by eapply ends_encode_throws. }
  rewrite (verify_signature_present _ _ _ {| payload := P |} _ _ Hh Hne Henc).
  cbv zeta. case_bool_decide as Hv1.
  - autorewrite with run. rewrite <- app_assoc.
    eapply ends_invalid_signature; eauto.
  - rewrite bind_normal, after_after, decode_after, <- app_assoc.
    eapply ends_verified; eauto.
Qed.

(** Every run ends in one of the ten ways. *)
Lemma run_ends config request :
  ends config request (createGetCentraWebhookEvents config request).
Proof.
  destruct (isRequestMethodPost (adapter config)) as [isPost|] eqn:Hpost.
  2:{ apply run_ends_passed. unfold method_check_passes. by rewrite Hpost. }
  destruct (isPost request) as [[]|e] eqn:Hrun.
  - apply run_ends_passed. unfold method_check_passes. by rewrite Hpost.
  - unfold createGetCentraWebhookEvents, method_refused.
    rewrite Hpost, Hrun. unfold lift. autorewrite with run.
    by eapply ends_method_refused.
  - unfold createGetCentraWebhookEvents, method_refused.
    rewrite Hpost, Hrun. unfold lift. autorewrite with run.
    by eapply ends_method_throws.
Qed.
End Ends.

(** ** What a run does, and what it never does *)

Section Runs.
Context `{runtime : Runtime} {TRequest : Type}.
Implicit Types (config : CreateGetCentraWebhookEventsConfig TRequest)
               (request : TRequest).

Lemma completion_map_data (c : completion value) events :
  completion_map CentraWebhookEventsData c = Normal (CentraWebhookEventsData events) ->
  c = Normal events.
Proof. destruct c; simpl; congruence. Qed.

Lemma method_trace_sublist config :
  method_trace config `sublist_of` [CallIsRequestMethodPost].
Proof.
  unfold method_trace. destruct (isRequestMethodPost (adapter config)).
  - done.
  - apply sublist_nil_l.
Qed.

(** X1. A request is accepted only when it is authentic: a run that resolves
    to the success pair has passed the method check, has read a body with a
    string payload that [JSON.parse] decodes to the events returned, and,
    when a secret is configured, has read a signature header whose [v1] is
    the digest the ingestor computes under that secret. *)
Theorem accepted_only_if_verified config request events :
  outcome (createGetCentraWebhookEvents config request)
    = Normal (CentraWebhookEventsData events) ->
  exists rawBody P,
    method_check_passes config request /\
    getRawBody (adapter config) request = Normal rawBody /\
    carries_payload rawBody P /\
    JSON_parse P = Normal events /\
    forall s,
      configured_secret config = Some s ->
      exists header encoded,
        getHeader (adapter config) request signature_header = Normal (Some header) /\
        encodeURIComponent P = Normal encoded /\
        parameter (parseNamedParametersString header) "v1"
          = Some (sign s (template_string
                            (parameter (parseNamedParametersString header) "t")
                          +:+ ".payload=" +:+ encoded)).
Proof.
  destruct (run_ends config request); simpl; intros Hout; try done.
  - apply completion_map_data in Hout.
    exists rawBody, P. repeat split; try done. intros s Hs. congruence.
  - apply completion_map_data in Hout.
    exists rawBody, P. repeat split; try done. intros s' Hs.
    exists header, encoded. repeat split; try done.
    replace s' with s by congruence. done.
Qed.

(** X2. The adapter is called in the order of the source and each function
    at most once: the trace of every run is a subsequence of
    [isRequestMethodPost, getRawBody, getHeader('x-centra-signature'),
    console.error('Invalid signature')]. *)
Theorem calls_in_order config request :
  trace (createGetCentraWebhookEvents config request) `sublist_of` call_order.
Proof.
  pose proof (method_trace_sublist config) as Hm.
  assert (Happ : forall rest,
    rest `sublist_of` [CallGetRawBody; CallGetHeader signature_header;
                       ConsoleError "Invalid signature"] ->
    method_trace config ++ rest `sublist_of` call_order).
  { intros rest Hrest. by apply (sublist_app _ [CallIsRequestMethodPost]). }
  destruct (run_ends config request); simpl.
  1,2: by repeat constructor.
  all: apply Happ; repeat constructor.
Qed.

(** X3. The error console is written to exactly when the signature is
    refused: the run that resolves to [InvalidSignature] writes the one line
    [Invalid signature], and every other run writes nothing. *)
Theorem logs_exactly_refused_signatures config request :
  console_lines (trace (createGetCentraWebhookEvents config request))
    = match outcome (createGetCentraWebhookEvents config request) with
      | Normal (CentraWebhookEventsError [ {| message := "Invalid signature" |} ]) =>
          ["Invalid signature"]
      | _ => []
      end.
Proof.
  assert (Hm : console_lines (method_trace config) = []).
  { unfold method_trace. by destruct (isRequestMethodPost (adapter config)). }
  assert (Happ : forall rest,
    console_lines (method_trace config ++ rest) = console_lines rest).
  { intros rest. unfold console_lines in *. by rewrite omap_app, Hm. }
  destruct (run_ends config request); simpl; rewrite ?Happ; try done.
  all: by destruct (JSON_parse P).
Qed.

(** X4. The signature header is read only to verify: a run that calls
    [getHeader] asks for [x-centra-signature] and nothing else, runs under a
    secret that is not empty, and has read before a body that carries a
    string payload. *)
Theorem header_read_only_to_verify config request headerKey :
  CallGetHeader headerKey ∈ trace (createGetCentraWebhookEvents config request) ->
  headerKey = "x-centra-signature"
  /\ (exists s, secret config = Some s /\ s <> "")
  /\ exists rawBody P,
       getRawBody (adapter config) request = Normal rawBody /\
       carries_payload rawBody P.
Proof.
  assert (Hm : forall rest,
    CallGetHeader headerKey ∈ method_trace config ++ rest ->
    CallGetHeader headerKey ∈ rest).
  { intros rest. unfold method_trace.
    destruct (isRequestMethodPost (adapter config)); [|done].
    simpl. by intros [?|?]%elem_of_cons. }
  assert (Hs : forall s, configured_secret config = Some s ->
                         exists s, secret config = Some s /\ s <> "").
  { intros s. unfold configured_secret.
    destruct (secret config) as [s'|]; [|done].
    case_bool_decide; [done|]. intros _. by exists s'. }
  destruct (run_ends config request); simpl; intros Hin;
    try apply Hm in Hin; decompose_list_elem_of; simplify_eq.
  all: split; [done|]; split; [by eapply Hs|]; by exists rawBody, P.
Qed.

(** X5. The promise rejects only with what was thrown to the ingestor: a run
    that rejects with [e] has seen an adapter function, [encodeURIComponent]
    or [JSON.parse] throw that [e]. *)
Theorem rejects_only_with_what_was_thrown config request e :
  outcome (createGetCentraWebhookEvents config request) = Throw e ->
  (exists isPost, isRequestMethodPost (adapter config) = Some isPost /\
                  isPost request = Throw e)
  \/ getRawBody (adapter config) request = Throw e
  \/ getHeader (adapter config) request signature_header = Throw e
  \/ exists rawBody P,
       getRawBody (adapter config) request = Normal rawBody /\
       carries_payload rawBody P /\
       (encodeURIComponent P = Throw e \/ JSON_parse P = Throw e).
Proof.
  destruct (run_ends config request); simpl; intros Hout; try done.
  - injection Hout as <-. left. eauto.
  - injection Hout as <-. auto.
  - right. right. right. exists rawBody, P. repeat split; try done.
    right. by destruct (JSON_parse P); simplify_eq/=.
  - injection Hout as <-. auto.
  - injection Hout as <-. right. right. right. exists rawBody, P. auto.
  - right. right. right. exists rawBody, P. repeat split; try done.
    right. by destruct (JSON_parse P); simplify_eq/=.
Qed.

(** X6. What an adapter function throws rejects the promise, and the run
    stops there: the functions later in the order are not called and nothing
    is written to the console. *)
Theorem adapter_exceptions_reject config request e t :
  thrown_by_adapter config request e t ->
  createGetCentraWebhookEvents config request = (Throw e, t).
Proof.
  intros [isPost Hdef Hrun|Hm Hraw|rawBody P s Hm Hraw Hp Hs Hh].
  - unfold createGetCentraWebhookEvents, method_refused.
    rewrite Hdef, Hrun. unfold lift. by autorewrite with run.
  - unfold createGetCentraWebhookEvents.
    rewrite (method_refused_passes _ _ Hm), Hraw.
    rewrite bind_normal. cbv beta iota. unfold lift. by autorewrite with run.
  - rewrite (run_to_signature _ _ _ _ Hm Hraw Hp). unfold from_signature.
    rewrite Hs, (verify_signature_header_throws _ _ _ _ _ Hh).
    autorewrite with run. by rewrite <- app_assoc.
Qed.
End Runs.

(** ** The adapters *)

(** X7. Under the pages router a signature header that was sent several times
    rejects the promise with the error of the adapter, once the request is a
    POST with a string payload and a secret is configured; with no secret the
    header is not read and the request is decoded. *)
Theorem pages_repeated_signature_header `{runtime : Runtime} s request P texts :
  method request = Some "POST" ->
  carries_payload (body request) P ->
  headers request !! "x-centra-signature" = Some (RepeatedHeader texts) ->
  createGetCentraWebhookEvents (pages_config s) request
    = match configured_secret (pages_config s) with
      | Some _ =>
          (Throw (GenericError "Multiple headers with same key passed."),
           [CallIsRequestMethodPost; CallGetRawBody;
            CallGetHeader "x-centra-signature"])
      | None =>
          (completion_map CentraWebhookEventsData (JSON_parse P),
           [CallIsRequestMethodPost; CallGetRawBody])
      end.
Proof.
  intros Hmethod Hp Hh.
  assert (Hm : method_check_passes (pages_config s) request).
  { unfold method_check_passes. simpl. by rewrite Hmethod. }
  rewrite (run_to_signature _ _ (body request) P Hm eq_refl Hp).
  unfold from_signature.
  destruct (configured_secret (pages_config s)) as [s'|].
  - rewrite (verify_signature_header_throws _ _ _ _
               (GenericError "Multiple headers with same key passed.")).
    + by autorewrite with run.
    + simpl. unfold signature_header. by rewrite Hh.
  - by rewrite bind_ret, decode_after.
Qed.

(** X8. The app router has no method check: whatever the request and the
    secret, the run never ends with [InvalidRequestMethod] and never calls a
    method predicate. *)
Theorem app_router_checks_no_method `{runtime : Runtime} s request :
  outcome (createGetCentraWebhookEvents (app_config s) request)
    <> Normal InvalidRequestMethod
  /\ CallIsRequestMethodPost
       ∉ trace (createGetCentraWebhookEvents (app_config s) request).
Proof.
  destruct (run_ends (app_config s) request); simplify_eq/=.
  all: split; [try done; by destruct (JSON_parse P)|].
  all: intros Hin; decompose_list_elem_of; discriminate.
Qed.

Lemma get_field_set_field key name v fields :
  get_field key (set_field name v fields)
  = if bool_decide (name = key) then Some v else get_field key fields.
Proof.
  induction fields as [|[k w] fields IH]; simpl.
  - done.
  - destruct (decide (k = name)) as [->|Hk].
    + rewrite bool_decide_eq_true_2 by done. simpl.
      by case_bool_decide.
    + rewrite (bool_decide_eq_false_2 (k = name)) by done. simpl.
      rewrite IH. repeat case_bool_decide; congruence.
Qed.

Lemma get_field_foldl_set_field key entries fields :
  get_field key
    (foldl (fun fields entry => set_field entry.1 entry.2 fields) fields entries)
  = match last (entries_named key entries) with
    | Some entry => Some entry.2
    | None => get_field key fields
    end.
Proof.
  revert fields. induction entries as [|[name v] entries IH]; intros fields.
  - done.
  - simpl. rewrite IH. unfold entries_named. rewrite filter_cons. simpl.
    case_decide as Hname.
    + rewrite last_cons. destruct (last (filter _ entries)); [done|].
      rewrite get_field_set_field. by rewrite bool_decide_eq_true_2.
    + destruct (last (filter _ entries)); [done|].
      rewrite get_field_set_field. by rewrite bool_decide_eq_false_2.
Qed.

Lemma parseRawBody_object fields :
  parseRawBody (VObject fields)
  = match get_field "payload" fields with
    | Some (VString P) => Some {| payload := P |}
    | _ => None
    end.
Proof.
  unfold parseRawBody. simpl.
  destruct (get_field "payload" fields) as [[]|]; simpl;
    rewrite ?andb_false_r; done.
Qed.

(** X9. The app router hands over the form as an object in which a name sent
    several times keeps its last value: the body is accepted when the last
    [payload] field of the form is a string, and that string is the
    payload. *)
Theorem app_router_last_payload_field request entries :
  formData request = Normal entries ->
  exists rawBody,
    getRawBody nextAppRouterAdapter request = Normal rawBody /\
    parseRawBody rawBody
    = match last (entries_named "payload" entries) with
      | Some (_, VString P) => Some {| payload := P |}
      | _ => None
      end.
Proof.
  intros Hform. simpl. rewrite Hform. simpl. eexists. split; [done|].
  unfold fromEntries. rewrite parseRawBody_object, get_field_foldl_set_field.
  by destruct (last (entries_named "payload" entries)) as [[? []]|].
Qed.

(** ** More on the parameters of the header *)

(** The pieces of a string without [c] are without [c]. *)
Lemma split_free_of c sep s :
  free_of c s -> Forall (free_of c) (split sep s).
Proof.
  induction s as [|x s IH]; simpl; intros Hs.
  - repeat constructor.
  - apply Forall_cons in Hs as [Hx Hs]. specialize (IH Hs).
    case_bool_decide.
    + constructor; [constructor|done].
    + destruct (split sep s) as [|piece pieces]; [by repeat constructor|].
      apply Forall_cons in IH as [Hpiece Hpieces].
      constructor; [by constructor|done].
Qed.

Lemma last_binding_Some key pairs v :
  last_binding key pairs = Some v ->
  exists pair, pair ∈ pairs /\ pair_key pair = key /\ pair_value pair = v.
Proof.
  unfold last_binding.
  destruct (last (filter (fun pair => pair_key pair = key) pairs))
    as [pair|] eqn:E; [|done].
  intros [= <-]. apply last_Some in E as [l E].
  assert (Hin : pair ∈ filter (fun pair => pair_key pair = key) pairs).
  { rewrite E. apply elem_of_app. right. by left. }
  apply list_elem_of_filter in Hin as [Hkey Hin]. by exists pair.
Qed.

Lemma render_pair_key_value kv :
  free_of "=" kv.1 -> free_of "=" kv.2 ->
  pair_key (render_pair kv) = kv.1 /\ pair_value (render_pair kv) = Some kv.2.
Proof.
  intros Hk Hv. unfold pair_key, pair_value, render_pair.
  by rewrite split_key_value.
Qed.

(** X10. Writing and reading a header: the parser reads the header
    [k1=v1,...,kn=vn] back as the object of these parameters, a key written
    several times keeping its last value, when no key is empty and neither
    keys nor values hold a comma or an equals sign. *)
Theorem parse_render_parameters kvs :
  Forall (fun kv => kv.1 <> "" /\ separator_free kv.1 /\ separator_free kv.2) kvs ->
  parseNamedParametersString (render_parameters kvs)
    = list_to_map (rev ((fun kv => (kv.1, Some kv.2)) <$> kvs)).
Proof.
  intros Hclean. unfold parseNamedParametersString, render_parameters.
  destruct (decide (kvs = [])) as [->|Hne]; [done|].
  rewrite split_join.
  2:{ by destruct kvs. }
  2:{ apply Forall_fmap. eapply Forall_impl; [exact Hclean|].
      intros kv (_ & [Hk _] & [Hv _]). unfold render_pair.
      apply free_of_app; [done|]. by constructor. }
  clear Hne. induction kvs as [|kv kvs IH] using rev_ind; [done|].
  apply Forall_app in Hclean as [Hclean Hkv].
  apply Forall_singleton in Hkv as (Hne & [_ Hk] & [_ Hv]).
  rewrite fmap_app, foldl_app, IH by done.
  rewrite fmap_app, rev_app_distr.
  change (rev ((fun kv => (kv.1, Some kv.2)) <$> [kv]) ++ ?l)
    with ((kv.1, Some kv.2) :: l).
  rewrite list_to_map_cons.
  change (foldl parameter_step ?m (render_pair <$> [kv]))
    with (parameter_step m (render_pair kv)).
  unfold parameter_step.
  destruct (render_pair_key_value kv Hk Hv) as [-> ->].
  by rewrite bool_decide_eq_false_2.
Qed.

(** X11. What the parser binds is free of the separators: a key of the
    parsed object is not empty and holds neither comma nor equals sign, and
    neither does its value. *)
Theorem parsed_parameters_are_separator_free input key v :
  parseNamedParametersString input !! key = Some v ->
  key <> "" /\ separator_free key /\
  forall s, v = Some s -> separator_free s.
Proof.
  intros Hlookup.
  assert (Hkey : key <> "").
  { intros ->. unfold parseNamedParametersString in Hlookup.
    by rewrite foldl_parameter_step_empty in Hlookup. }
  split; [done|]. rewrite parse_lookup in Hlookup by done.
  apply last_binding_Some in Hlookup as (pair & Hin & Hk & Hv).
  assert (Hcomma : free_of "," pair).
  { pose proof (split_pieces_free "," input) as Hfree.
    by eapply Forall_forall in Hfree. }
  pose proof (split_free_of "," "=" pair Hcomma) as Hcommas.
  pose proof (split_pieces_free "=" pair) as Hequals.
  unfold pair_key in Hk. unfold pair_value in Hv.
  split.
  - destruct (split "=" pair) as [|piece pieces] eqn:E;
      [by apply split_not_nil in E|].
    simpl in Hk. subst piece.
    apply Forall_cons in Hcommas as [? _]. by apply Forall_cons in Hequals as [? _].
  - intros s ->. split.
    + eapply Forall_forall in Hcommas; [done|]. by eapply list_elem_of_lookup_2.
    + eapply Forall_forall in Hequals; [done|]. by eapply list_elem_of_lookup_2.
Qed.

Section Headers.
Context `{runtime : Runtime} {TRequest : Type}.
Implicit Types (config : CreateGetCentraWebhookEventsConfig TRequest)
               (request : TRequest).

(** X12. The ingestor reads the signature header through its parameters [t]
    and [v1] alone: two requests that differ in the header only, with headers
    that are not empty and agree on [t] and on [v1], run alike, whatever the
    order of the pairs and whatever else the headers hold. *)
Theorem header_read_through_t_and_v1 config request request' header header' :
  (forall isPost, isRequestMethodPost (adapter config) = Some isPost ->
                  isPost request' = isPost request) ->
  getRawBody (adapter config) request' = getRawBody (adapter config) request ->
  getHeader (adapter config) request signature_header = Normal (Some header) ->
  getHeader (adapter config) request' signature_header = Normal (Some header') ->
  header <> "" -> header' <> "" ->
  parameter (parseNamedParametersString header') "t"
    = parameter (parseNamedParametersString header) "t" ->
  parameter (parseNamedParametersString header') "v1"
    = parameter (parseNamedParametersString header) "v1" ->
  createGetCentraWebhookEvents config request'
    = createGetCentraWebhookEvents config request.
Proof.
  intros Hpost Hraw Hh Hh' Hne Hne' Ht Hv1.
  assert (Hmethod : method_refused config request' = method_refused config request).
  { unfold method_refused.
    destruct (isRequestMethodPost (adapter config)) as [isPost|] eqn:E; [|done].
    by rewrite (Hpost isPost). }
  assert (Hverify : forall s body,
            verify_signature config s request' body
            = verify_signature config s request body).
  { intros s body. unfold verify_signature. fold signature_header.
    rewrite Hh, Hh'. unfold lift. rewrite !bind_normal. cbv beta iota.
    rewrite !bool_decide_eq_false_2 by done. cbv zeta. by rewrite Ht, Hv1. }
  unfold createGetCentraWebhookEvents. rewrite Hmethod, Hraw.
  destruct (method_refused config request) as [[[]|e] t]; try done.
  rewrite !bind_normal. cbv beta iota. f_equal.
  destruct (getRawBody (adapter config) request) as [rawBody|e]; [|done].
  unfold lift. rewrite !bind_normal. f_equal.
  destruct (parseRawBody rawBody) as [body|]; [|done].
  destruct (configured_secret config) as [s|]; [|done].
  by rewrite Hverify.
Qed.
End Headers.

(** ** The equalities of numbers *)

Lemma SFeqb_same x y : SFeqb x y = true <-> SFsame x y.
Proof.
  unfold SFeqb.
  destruct x as [sx|sx| |sx mx ex], y as [sy|sy| |sy my ey]; simpl;
    try destruct sx; try destruct sy; simpl;
    try (intuition (discriminate || congruence)).
  all: change (Pos.compare_cont Eq mx my) with (Pos.compare mx my).
  all: destruct (Z.compare_spec ex ey) as [->|Hlt|Hgt];
    try (split; [discriminate|intros (_ & _ & ?); lia]).
  all: destruct (Pos.compare_spec mx my) as [->|Hlt|Hgt]; simpl;
    try (split; [discriminate|intros (_ & ? & _); lia]).
  all: tauto.
Qed.

Lemma SFsame_sym x y : SFsame x y -> SFsame y x.
Proof. destruct x, y; simpl; intuition congruence. Qed.

Lemma SFsame_trans x y z : SFsame x y -> SFsame y z -> SFsame x z.
Proof. destruct x, y, z; simpl; intuition congruence. Qed.

Lemma SFsame_self x y : SFsame x y -> SFsame y y.
Proof. destruct x, y; simpl; intuition congruence. Qed.

Lemma float_eqb_sym x y : PrimFloat.eqb x y = PrimFloat.eqb y x.
Proof.
  rewrite !FloatAxioms.eqb_spec. apply eq_true_iff_eq.
  rewrite !SFeqb_same. split; apply SFsame_sym.
Qed.

Lemma float_eqb_trans x y z :
  PrimFloat.eqb x y = true -> PrimFloat.eqb y z = true -> PrimFloat.eqb x z = true.
Proof. rewrite !FloatAxioms.eqb_spec, !SFeqb_same. apply SFsame_trans. Qed.

Lemma float_eqb_self x y : PrimFloat.eqb x y = true -> PrimFloat.eqb y y = true.
Proof. rewrite !FloatAxioms.eqb_spec, !SFeqb_same. apply SFsame_self. Qed.

Lemma float_eqb_self_l x y : PrimFloat.eqb x y = true -> PrimFloat.eqb x x = true.
Proof. rewrite (float_eqb_sym x y). apply float_eqb_self. Qed.

(** The equalities of the primitives keep the laws. *)
Lemma primitive_comparable_laws : ComparableLaws primitive.
Proof.
  split.
  - intros [| |b|x|s]; simpl; try done; try by apply bool_decide_eq_true_2.
    unfold PrimFloat.is_nan. by destruct (PrimFloat.eqb x x).
  - intros [| |a|a|a] [| |b|b|b]; simpl; try done.
    + apply eq_true_iff_eq. rewrite !bool_decide_eq_true. split; congruence.
    + by rewrite (float_eqb_sym a b), (andb_comm (PrimFloat.is_nan a)).
    + apply eq_true_iff_eq. rewrite !bool_decide_eq_true. split; congruence.
  - intros [| |a|a|a] [| |b|b|b] [| |c|c|c]; simpl; try done.
    + rewrite !bool_decide_eq_true. congruence.
    + unfold PrimFloat.is_nan. intros H1 H2.
      destruct (PrimFloat.eqb a b) eqn:Hab, (PrimFloat.eqb b c) eqn:Hbc;
        simpl in *.
      * by rewrite (float_eqb_trans a b c).
      * rewrite (float_eqb_self a b Hab) in H2. discriminate.
      * rewrite (float_eqb_self_l b c Hbc), andb_false_r in H1. discriminate.
      * apply andb_true_iff in H1 as [Ha _]. apply andb_true_iff in H2 as [_ Hc].
        rewrite Ha, Hc. by rewrite orb_true_r.
    + rewrite !bool_decide_eq_true. congruence.
  - intros [| |a|a|a] [| |b|b|b]; simpl; try done. by intros ->.
  - intros [| |a|a|a] [| |b|b|b]; simpl; try done.
    unfold PrimFloat.is_nan. intros Hab Hb. rewrite Hb in Hab. simpl in Hab.
    by rewrite andb_false_r, orb_false_r in Hab.
  - intros [| |a|a|a] [| |b|b|b]; simpl; try done.
    + intros _. by apply bool_decide_eq_true_2.
    + apply float_eqb_self.
    + intros _. by apply bool_decide_eq_true_2.
Qed.

(** ** [toggle] *)

Section Toggle.
Context {T : Type} {comparable : Comparable T} {laws : ComparableLaws T}.
#[local] Set Default Proof Using "All".
Implicit Types (array : list T) (value item : T).

Lemma includes_app array array' value :
  includes (array ++ array') value = includes array value || includes array' value.
Proof. unfold includes. by rewrite existsb_app. Qed.

Lemma includes_false array value :
  includes array value = false <->
  Forall (fun item => same_value_zero item value = false) array.
Proof.
  unfold includes. induction array as [|item array IH]; simpl.
  - split; [constructor|done].
  - rewrite orb_false_iff, IH, Forall_cons. tauto.
Qed.

(** An array that does not include the value is left as it is by the
    filter. *)
Lemma filter_absent array value :
  includes array value = false ->
  List.filter (fun item => negb (strict_equal item value)) array = array.
Proof.
  rewrite includes_false. induction 1 as [|item array Hitem _ IH]; simpl; [done|].
  destruct (strict_equal item value) eqn:E.
  - apply strict_equal_same_value in E. congruence.
  - simpl. by rewrite IH.
Qed.

(** The filter leaves nothing that is the same as a value equal to itself. *)
Lemma includes_filter array value :
  strict_equal value value = true ->
  includes (List.filter (fun item => negb (strict_equal item value)) array) value
    = false.
Proof.
  intros Hself. apply includes_false.
  induction array as [|item array IH]; simpl; [constructor|].
  destruct (strict_equal item value) eqn:E; simpl; [done|].
  constructor; [|done].
  destruct (same_value_zero item value) eqn:Esame; [|done].
  by rewrite (same_value_strict_equal _ _ Esame Hself) in E.
Qed.

(** X13. Toggling flips the presence of the value: after [toggle] the array
    includes the value exactly when it did not before, for every value that
    is [===] to itself. *)
Theorem toggle_flips_presence array value :
  strict_equal value value = true ->
  includes (toggle array value) value = negb (includes array value).
Proof.
  intros Hself. unfold toggle.
  destruct (includes array value) eqn:E; simpl.
  - by apply includes_filter.
  - rewrite includes_app, E. simpl. unfold includes. simpl.
    by rewrite same_value_zero_refl.
Qed.

(** The filter keeps the presence of what is not the same as the value. *)
Lemma includes_filter_other array value other :
  same_value_zero other value = false ->
  includes (List.filter (fun item => negb (strict_equal item value)) array) other
    = includes array other.
Proof.
  intros Hother. unfold includes.
  induction array as [|item array IH]; simpl; [done|].
  destruct (strict_equal item value) eqn:Estrict; simpl; [|by rewrite IH].
  rewrite IH. apply strict_equal_same_value in Estrict.
  destruct (same_value_zero item other) eqn:Esame; [|done].
  rewrite same_value_zero_sym in Esame.
  by rewrite (same_value_zero_trans _ _ _ Esame Estrict) in Hother.
Qed.

(** [includes] does not tell values that are the same apart. *)
Lemma includes_same_value array value other :
  same_value_zero value other = true ->
  includes array value = includes array other.
Proof.
  intros Hsame. unfold includes. induction array as [|item array IH]; simpl; [done|].
  rewrite IH. f_equal.
  destruct (same_value_zero item value) eqn:E.
  - symmetry. by apply (same_value_zero_trans _ value).
  - destruct (same_value_zero item other) eqn:E'; [|done].
    rewrite (same_value_zero_sym value other) in Hsame.
    by rewrite (same_value_zero_trans _ _ _ E' Hsame) in E.
Qed.

(** X14. Toggling a value leaves the presence of every other value as it
    was. *)
Theorem toggle_keeps_other_values array value other :
  same_value_zero other value = false ->
  includes (toggle array value) other = includes array other.
Proof.
  intros Hother. unfold toggle.
  destruct (includes array value) eqn:E.
  - by apply includes_filter_other.
  - rewrite includes_app. unfold includes at 2. simpl.
    by rewrite same_value_zero_sym, Hother, !orb_false_r.
Qed.

(** The filter keeps every entry when the value is not [===] to itself. *)
Lemma filter_unequal_to_itself array value :
  strict_equal value value = false ->
  List.filter (fun item => negb (strict_equal item value)) array = array.
Proof.
  intros Hself. induction array as [|item array IH]; simpl; [done|].
  destruct (strict_equal item value) eqn:E.
  - apply strict_equal_self in E. congruence.
  - simpl. by rewrite IH.
Qed.

(** X15. Toggling twice a value the array does not include: a value that is
    [===] to itself is added and removed again, which gives the array back;
    a value that is not, as [NaN], is added by the first toggle and kept by
    the second, which gives the array with the value at its end. *)
Theorem toggle_twice_absent array value :
  includes array value = false ->
  toggle (toggle array value) value
    = if strict_equal value value then array else array ++ [value].
Proof.
  intros Habsent. unfold toggle at 2. rewrite Habsent.
  unfold toggle. rewrite includes_app, Habsent. unfold includes at 1. simpl.
  rewrite same_value_zero_refl. simpl.
  destruct (strict_equal value value) eqn:Hself.
  - rewrite List.filter_app, (filter_absent _ _ Habsent). simpl.
    rewrite Hself. simpl. by rewrite app_nil_r.
  - by apply filter_unequal_to_itself.
Qed.

(** X16. Toggling twice a value the array includes: for a value that is
    [===] to itself the array is in general not given back, every entry
    equal to the value is removed and one entry, the value itself, is put at
    the end; for a value that is not, as [NaN], both toggles leave the array
    as it is. *)
Theorem toggle_twice_present array value :
  includes array value = true ->
  toggle (toggle array value) value
    = if strict_equal value value
      then List.filter (fun item => negb (strict_equal item value)) array ++ [value]
      else array.
Proof.
  intros Hpresent. unfold toggle at 2. rewrite Hpresent.
  destruct (strict_equal value value) eqn:Hself.
  - unfold toggle. by rewrite (includes_filter _ _ Hself).
  - rewrite (filter_unequal_to_itself _ _ Hself).
    unfold toggle. rewrite Hpresent. by apply filter_unequal_to_itself.
Qed.

(** X17. A value that is not [===] to itself, as [NaN], is never removed:
    toggling it leaves an array that includes it as it is. *)
Theorem toggle_keeps_unequal_to_itself array value :
  strict_equal value value = false ->
  includes array value = true ->
  toggle array value = array.
Proof.
  intros Hself Hpresent. unfold toggle. rewrite Hpresent.
  induction array as [|item array IH]; simpl; [done|].
  destruct (strict_equal item value) eqn:E.
  - apply strict_equal_self in E. congruence.
  - simpl. f_equal. clear IH Hpresent.
    induction array as [|item' array IH]; simpl; [done|].
    destruct (strict_equal item' value) eqn:E'.
    + apply strict_equal_self in E'. congruence.
    + simpl. by rewrite IH.
Qed.

(** X18. Toggling touches the entries equal to the value only: the entries
    that are not the same as the value are kept, in their order. *)
Theorem toggle_keeps_other_entries array value :
  List.filter (fun item => negb (same_value_zero item value)) (toggle array value)
  = List.filter (fun item => negb (same_value_zero item value)) array.
Proof.
  unfold toggle. destruct (includes array value).
  - induction array as [|item array IH]; simpl; [done|].
    destruct (strict_equal item value) eqn:E; simpl.
    + by rewrite (strict_equal_same_value _ _ E).
    + by rewrite IH.
  - rewrite List.filter_app. simpl. rewrite same_value_zero_refl. simpl.
    by rewrite app_nil_r.
Qed.
(** Toggling twice a value the array includes. *)
Lemma toggle_toggle_present array value :
  strict_equal value value = true ->
  includes array value = true ->
  toggle (toggle array value) value
    = List.filter (fun item => negb (strict_equal item value)) array ++ [value]
  /\ includes (toggle array value) value = false
  /\ includes (toggle (toggle array value) value) value = true
  /\ forall other, includes array other = true ->
                   includes (toggle (toggle array value) value) other = true.
Proof.
  intros Hself Hpresent.
  assert (Honce : toggle array value
                  = List.filter (fun item => negb (strict_equal item value)) array).
  { unfold toggle. by rewrite Hpresent. }
  assert (Htwice : toggle (toggle array value) value
                   = List.filter (fun item => negb (strict_equal item value)) array
                     ++ [value]).
  { unfold toggle at 1. by rewrite Honce, (includes_filter _ _ Hself). }
  split; [done|]. split; [rewrite Honce; by apply includes_filter|].
  clear Honce.
  assert (Hvalue : includes (toggle (toggle array value) value) value = true).
  { rewrite Htwice, includes_app. unfold includes at 2. simpl.
    by rewrite same_value_zero_refl, !orb_true_r. }
  split; [done|]. intros other Hother.
  destruct (same_value_zero other value) eqn:E.
  - by rewrite (includes_same_value _ other value).
  - by rewrite Htwice, includes_app, includes_filter_other, Hother.
Qed.

Lemma toggles_each_foldl values modified checks :
  Forall (fun value => strict_equal value value = true) values ->
  Forall (fun value => includes modified value = true) values ->
  passes checks ->
  passes (foldl toggles_each (modified, checks) values).2
  /\ forall other, includes modified other = false ->
       Forall (fun value => same_value_zero other value = false) values ->
       includes (foldl toggles_each (modified, checks) values).1 other = false.
Proof.
  revert modified checks.
  induction values as [|value values IH]; intros modified checks Hself Hin Hpass.
  - done.
  - apply Forall_cons in Hself as [Hvalue Hself].
    apply Forall_cons in Hin as [Hpresent Hin].
    destruct (toggle_toggle_present modified value Hvalue Hpresent)
      as (Htwice & Hremoved & Hadded & Hkept).
    simpl. unfold toggles_each at 2. simpl.
    destruct (IH (toggle (toggle modified value) value)
                 (checks ++ [(includes (toggle modified value) value, false);
                             (includes (toggle (toggle modified value) value) value,
                              true)])) as [Hchecks Hother].
    + done.
    + eapply Forall_impl; [exact Hin|]. intros other. apply Hkept.
    + apply Forall_app. split; [done|]. by repeat constructor.
    + split; [done|]. intros other Habsent Hothers.
      apply Forall_cons in Hothers as [Hne Hothers].
      apply Hother; [|done].
      rewrite Htwice, includes_app, includes_filter_other, Habsent by done.
      unfold includes. simpl. by rewrite same_value_zero_sym, Hne.
Qed.

(** X19. The test of the repository passes on every array: for any array of
    values that are [===] to themselves in the place of [[1, 'foo', true]]
    and any such value that the array does not include in the place of
    ['bar'], every check of the test holds. *)
Theorem toggle_test_passes original extra :
  Forall (fun value => strict_equal value value = true) original ->
  strict_equal extra extra = true ->
  includes original extra = false ->
  passes (toggles_given_value original extra).
Proof.
  intros Hself Hextra Habsent. unfold toggles_given_value.
  assert (Hin : Forall (fun value => includes original value = true) original).
  { clear -laws. apply Forall_forall. intros value Hvalue. unfold includes.
    induction Hvalue as [value array|value item array _ IH]; simpl.
    - by rewrite same_value_zero_refl.
    - by rewrite IH, orb_true_r. }
  destruct (toggles_each_foldl original original [] Hself Hin) as [Hchecks Hother];
    [constructor|].
  specialize (Hother extra Habsent).
  destruct (foldl toggles_each (original, []) original) as [modified checks].
  simpl in *.
  assert (Hmodified : includes modified extra = false).
  { apply Hother. apply includes_false in Habsent.
    eapply Forall_impl; [exact Habsent|]. intros value Hvalue. simpl in Hvalue.
    by rewrite same_value_zero_sym. }
  apply Forall_app. split; [done|].
  assert (Hadded : toggle modified extra = modified ++ [extra]).
  { unfold toggle. by rewrite Hmodified. }
  assert (Hpresent : includes (modified ++ [extra]) extra = true).
  { rewrite includes_app. unfold includes at 2. simpl.
    by rewrite same_value_zero_refl, !orb_true_r. }
  rewrite Hadded. repeat constructor; simpl; [done|].
  unfold toggle. rewrite Hpresent. by apply includes_filter.
Qed.
End Toggle.

(** ** The further properties at work *)

(** The examples of the documentation of [toggle]. *)
Example toggle_documented :
  toggle tested_array (PNumber 1) = [PString "foo"; PBoolean true]
  /\ toggle tested_array (PBoolean true) = [PNumber 1; PString "foo"]
  /\ toggle tested_array (PString "baz")
     = [PNumber 1; PString "foo"; PBoolean true; PString "baz"].
Proof. by vm_compute. Qed.

(** [NaN] is found by [includes] and kept by the filter; the two zeros are
    one value to both. *)
Example toggle_nan_and_zeros :
  toggle [PNumber nan; PNumber 2] (PNumber nan) = [PNumber nan; PNumber 2]
  /\ toggle [PNumber neg_zero; PNumber 2] (PNumber zero) = [PNumber 2].
Proof. by vm_compute. Qed.

Lemma accepted_only_if_verified_witness :
  exists rawBody P,
    method_check_passes (pages_config (Some "secret"))
      (pages_request "POST" (Some signed_header) (payload_body products_payload)) /\
    getRawBody (adapter (pages_config (Some "secret")))
      (pages_request "POST" (Some signed_header) (payload_body products_payload))
    = Normal rawBody /\
    carries_payload rawBody P /\
    JSON_parse (Runtime := node) P = Normal products_events /\
    forall s,
      configured_secret (pages_config (Some "secret")) = Some s ->
      exists header encoded,
        getHeader (adapter (pages_config (Some "secret")))
          (pages_request "POST" (Some signed_header) (payload_body products_payload))
          signature_header = Normal (Some header) /\
        encodeURIComponent (Runtime := node) P = Normal encoded /\
        parameter (parseNamedParametersString header) "v1"
          = Some (sign (runtime := node) s
                    (template_string
                       (parameter (parseNamedParametersString header) "t")
                     +:+ ".payload=" +:+ encoded)).
Proof.
  apply (accepted_only_if_verified (runtime := node)
           (pages_config (Some "secret"))
           (pages_request "POST" (Some signed_header) (payload_body products_payload))
           products_events).
  by_computation.
Defined.

Lemma header_read_only_to_verify_witness :
  "x-centra-signature" = "x-centra-signature"
  /\ (exists s, secret (pages_config (Some "secret")) = Some s /\ s <> "")
  /\ exists rawBody P,
       getRawBody (adapter (pages_config (Some "secret")))
         (pages_request "POST" None (payload_body products_payload))
       = Normal rawBody /\
       carries_payload rawBody P.
Proof.
  apply (header_read_only_to_verify (runtime := node)
           (pages_config (Some "secret"))
           (pages_request "POST" None (payload_body products_payload))
           "x-centra-signature").
  apply (bool_decide_unpack _). by vm_compute.
Defined.

Lemma rejects_only_with_what_was_thrown_witness :
  (exists isPost,
     isRequestMethodPost (adapter (pages_config None)) = Some isPost /\
     isPost (pages_request "POST" None (payload_body "not json")) = Throw SyntaxError)
  \/ getRawBody (adapter (pages_config None))
       (pages_request "POST" None (payload_body "not json")) = Throw SyntaxError
  \/ getHeader (adapter (pages_config None))
       (pages_request "POST" None (payload_body "not json")) signature_header
     = Throw SyntaxError
  \/ exists rawBody P,
       getRawBody (adapter (pages_config None))
         (pages_request "POST" None (payload_body "not json")) = Normal rawBody /\
       carries_payload rawBody P /\
       (encodeURIComponent (Runtime := node) P = Throw SyntaxError
        \/ JSON_parse (Runtime := node) P = Throw SyntaxError).
Proof.
  apply (rejects_only_with_what_was_thrown (runtime := node) (pages_config None)
           (pages_request "POST" None (payload_body "not json")) SyntaxError).
  by_computation.
Defined.

(** A request of the pages router whose signature header came twice. *)
Lemma adapter_exceptions_reject_witness :
  createGetCentraWebhookEvents (runtime := node) (pages_config (Some "secret"))
    {| method := Some "POST";
       headers := {[ "x-centra-signature" := RepeatedHeader ["a"; "b"] ]};
       body := payload_body products_payload |}
  = (Throw (GenericError "Multiple headers with same key passed."),
     [CallIsRequestMethodPost; CallGetRawBody; CallGetHeader signature_header]).
Proof.
  apply (adapter_exceptions_reject (runtime := node) (pages_config (Some "secret"))
           _ _ (method_trace (pages_config (Some "secret"))
                ++ [CallGetRawBody; CallGetHeader signature_header])).
  apply (thrown_by_header _ _ _ (payload_body products_payload) products_payload
           "secret").
  - reflexivity.
  - reflexivity.
  - eexists. split; reflexivity.
  - reflexivity.
  - by_computation.
Defined.

Lemma pages_repeated_signature_header_witness :
  createGetCentraWebhookEvents (runtime := node) (pages_config None)
    {| method := Some "POST";
       headers := {[ "x-centra-signature" := RepeatedHeader ["a"; "b"] ]};
       body := payload_body products_payload |}
  = (completion_map CentraWebhookEventsData
       (JSON_parse (Runtime := node) products_payload),
     [CallIsRequestMethodPost; CallGetRawBody]).
Proof.
  apply (pages_repeated_signature_header (runtime := node) None
           {| method := Some "POST";
              headers := {[ "x-centra-signature" := RepeatedHeader ["a"; "b"] ]};
              body := payload_body products_payload |}
           products_payload ["a"; "b"]).
  - reflexivity.
  - eexists. split; reflexivity.
  - by_computation.
Defined.

Lemma app_router_last_payload_field_witness :
  exists rawBody,
    getRawBody nextAppRouterAdapter
      {| headers_get := fun _ => None;
         formData := Normal [("payload", VString "[]"); ("id", VString "7");
                             ("payload", VString "{}")] |}
    = Normal rawBody /\
    parseRawBody rawBody = Some {| payload := "{}" |}.
Proof.
  apply (app_router_last_payload_field
           {| headers_get := fun _ => None;
              formData := Normal [("payload", VString "[]"); ("id", VString "7");
                                  ("payload", VString "{}")] |}
           [("payload", VString "[]"); ("id", VString "7");
            ("payload", VString "{}")]).
  reflexivity.
Defined.

Lemma parse_render_parameters_witness :
  parseNamedParametersString "t=1,v1=abc,t=2"
  = list_to_map [("t", Some "2"); ("v1", Some "abc"); ("t", Some "1")].
Proof.
  apply (parse_render_parameters [("t", "1"); ("v1", "abc"); ("t", "2")]).
  unfold separator_free, free_of. decide_by_computation.
Defined.

Lemma parsed_parameters_are_separator_free_witness :
  "k" <> "" /\ separator_free "k" /\
  forall s, Some "a" = Some s -> separator_free s.
Proof.
  apply (parsed_parameters_are_separator_free "k=a=b" "k" (Some "a")).
  by_computation.
Defined.

Lemma header_read_through_t_and_v1_witness :
  createGetCentraWebhookEvents (runtime := node) (pages_config (Some "secret"))
    (pages_request "POST" (Some signed_header_reordered)
       (payload_body products_payload))
  = createGetCentraWebhookEvents (runtime := node) (pages_config (Some "secret"))
      (pages_request "POST" (Some signed_header) (payload_body products_payload)).
Proof.
  apply (header_read_through_t_and_v1 (runtime := node)
           (pages_config (Some "secret"))
           (pages_request "POST" (Some signed_header) (payload_body products_payload))
           (pages_request "POST" (Some signed_header_reordered)
              (payload_body products_payload))
           signed_header signed_header_reordered).
  - intros isPost [= <-]. reflexivity.
  - reflexivity.
  - by_computation.
  - by_computation.
  - discriminate.
  - discriminate.
  - by_computation.
  - by_computation.
Defined.

Lemma toggle_flips_presence_witness :
  includes (toggle tested_array (PString "foo")) (PString "foo")
  = negb (includes tested_array (PString "foo")).
Proof.
  apply (toggle_flips_presence (laws := primitive_comparable_laws)).
  reflexivity.
Defined.

Lemma toggle_keeps_other_values_witness :
  includes (toggle tested_array (PString "foo")) (PNumber 1)
  = includes tested_array (PNumber 1).
Proof.
  apply (toggle_keeps_other_values (laws := primitive_comparable_laws)).
  reflexivity.
Defined.

Lemma toggle_twice_absent_witness :
  toggle (toggle tested_array (PString "bar")) (PString "bar") = tested_array
  /\ toggle (toggle tested_array (PNumber nan)) (PNumber nan)
     = tested_array ++ [PNumber nan].
Proof.
  split.
  - apply (toggle_twice_absent (laws := primitive_comparable_laws) tested_array
             (PString "bar")).
    reflexivity.
  - apply (toggle_twice_absent (laws := primitive_comparable_laws) tested_array
             (PNumber nan)).
    reflexivity.
Defined.

Lemma toggle_twice_present_witness :
  toggle (toggle tested_array (PNumber 1)) (PNumber 1)
  = [PString "foo"; PBoolean true; PNumber 1]
  /\ toggle (toggle [PNumber nan] (PNumber nan)) (PNumber nan) = [PNumber nan].
Proof.
  split.
  - apply (toggle_twice_present (laws := primitive_comparable_laws) tested_array
             (PNumber 1)).
    reflexivity.
  - apply (toggle_twice_present (laws := primitive_comparable_laws) [PNumber nan]
             (PNumber nan)).
    reflexivity.
Defined.

Lemma toggle_keeps_unequal_to_itself_witness :
  toggle [PString "foo"; PNumber nan] (PNumber nan) = [PString "foo"; PNumber nan].
Proof.
  apply (toggle_keeps_unequal_to_itself (laws := primitive_comparable_laws));
    by_computation.
Defined.

Lemma toggle_keeps_other_entries_witness :
  List.filter (fun item => negb (same_value_zero item (PString "foo")))
    (toggle tested_array (PString "foo"))
  = List.filter (fun item => negb (same_value_zero item (PString "foo")))
      tested_array.
Proof.
  apply (toggle_keeps_other_entries (laws := primitive_comparable_laws)).
Defined.

(** The test as the repository runs it. *)
Lemma toggle_test_passes_witness :
  passes (toggles_given_value tested_array (PString "bar")).
Proof.
  apply (toggle_test_passes (laws := primitive_comparable_laws)).
  - by repeat constructor.
  - reflexivity.
  - reflexivity.
Defined.
